(** * BGmi controllers: subscription lifecycle and episode reconciliation

    Shallow embedding of [bgmi/lib/controllers.py].  The controllers act on
    two tables ([Bangumi], the catalog, and [Followed], the subscriptions),
    call an episode source that may fail, and hand download tasks to an
    external downloader.  Python integers are unbounded, hence [Z]. *)

From Stdlib Require Import ZArith.
From stdpp Require Import base option list list_numbers sorting gmap strings pretty.

Local Open Scope Z_scope.

(** ** Data model *)

(** [bgmi.website.model.Episode]: the attributes the controllers read. *)
Module Episode.
Record t : Type := mk {
  name : string;
  title : string;
  download : string;
  episode : Z;
}.
End Episode.

(** A row of the catalog table. *)
Module Bangumi.
Record t : Type := mk {
  name : string;
  subtitle_group : list string;
}.

(** Modelled from the spec: [Bangumi.get] of bgmi/lib/table.py is the
    Catalog's [resolve]: the first row meeting the condition, or NotFound
    (here [None]; the callers turn it into [Bangumi.NotFoundError]). *)
Definition get (cond : t -> bool) (rows : list t) : option t :=
  List.find cond rows.
End Bangumi.

(** A row of the subscription table. *)
Module Followed.
Record t : Type := mk {
  bangumi_name : string;
  episode : Z;
  status : Z;
  updated_time : Z;
  subtitle : list string;
  include : list string;
  exclude : list string;
  regex : option string;
}.

(** Modelled from the spec: the status codes declared in bgmi/lib/table.py,
    the enum {FOLLOWED, UPDATED, DELETED} with DELETED the zero code that
    [status_] rejects through [not status]. *)
Definition STATUS_DELETED : Z := 0.
Definition STATUS_FOLLOWED : Z := 1.
Definition STATUS_UPDATED : Z := 2.
Definition FOLLOWED_STATUS : list Z :=
  [STATUS_DELETED; STATUS_FOLLOWED; STATUS_UPDATED].

Definition set_episode (n : Z) (f : t) : t :=
  mk (bangumi_name f) n (status f) (updated_time f)
     (subtitle f) (include f) (exclude f) (regex f).
Definition set_status (s : Z) (f : t) : t :=
  mk (bangumi_name f) (episode f) s (updated_time f)
     (subtitle f) (include f) (exclude f) (regex f).
Definition set_updated_time (u : Z) (f : t) : t :=
  mk (bangumi_name f) (episode f) (status f) u
     (subtitle f) (include f) (exclude f) (regex f).

(** Modelled from the spec: the constructor call
    [Followed(status=..., bangumi_name=..., episode=...)] leaves the other
    columns at their defaults (no timestamp, no filters). *)
Definition new (s : Z) (n : string) (e : Z) : t :=
  mk n e s 0 [] [] [] None.

(** Modelled from the spec: the Subscription Store of bgmi/lib/table.py,
    one row per series name.  [get] is the store's
    [get(series) -> Subscription | NotFound], [save] its [upsert], and
    [get_all_followed] its [list_active] (every row that is not DELETED). *)
Definition get (n : string) (rows : gmap string t) : option t := rows !! n.
Definition save (f : t) (rows : gmap string t) : gmap string t :=
  <[bangumi_name f := f]> rows.
Definition get_all_followed (rows : gmap string t) : list t :=
  filter (fun f => status f ≠ STATUS_DELETED) (snd <$> map_to_list rows).
End Followed.

(** The table is keyed by the series name: every row sits under its own
    [bangumi_name]. *)
Definition store_ok (rows : gmap string Followed.t) : Prop :=
  map_Forall (fun k f => Followed.bangumi_name f = k) rows.

#[global] Instance store_ok_dec (rows : gmap string Followed.t) : Decision (store_ok rows).
Proof. unfold store_ok. apply _. Defined.

(** [bgmi.lib.table.Download] as built by [update]. *)
Module Download.
Record t : Type := mk {
  bangumi_name : string;
  episode : Z;
  status : Z;
  download : string;
  title : string;
}.
Definition STATUS_NOT_DOWNLOAD : Z := 0.
Definition STATUS_DOWNLOADING : Z := 1.

(** The comprehension [Download(bangumi_name=x.name, episode=x.episode,
    status=Download.STATUS_DOWNLOADING, download=x.download, title=x.title)
    for x in queue]. *)
Definition of_queue (queue : list Episode.t) : list t :=
  (fun x => mk (Episode.name x) (Episode.episode x) STATUS_DOWNLOADING
               (Episode.download x) (Episode.title x)) <$> queue.
End Download.

(** ** Python building blocks used by [update] *)

(** [range(start, stop)]. *)
Definition range (start stop : Z) : list Z := seqZ start (stop - start).

(** [itertools.groupby(l, key)]: the maximal runs of consecutive elements
    with equal keys, in order, each with its key. *)
Fixpoint groupby {A : Type} (key : A -> Z) (l : list A) : list (Z * list A) :=
  match l with
  | [] => []
  | x :: l' =>
      match groupby key l' with
      | (k, g) :: rest =>
          if decide (key x = k) then (k, x :: g) :: rest
          else (key x, [x]) :: (k, g) :: rest
      | [] => [(key x, [x])]
      end
  end.

(** A well-formed run: not empty, and its key on every element. *)
Definition run_ok {A : Type} (key : A -> Z) (kg : Z * list A) : Prop :=
  kg.2 ≠ [] ∧ Forall (fun x => key x = kg.1) kg.2.

(** The dict comprehension [{key: list(value) for key, value in ...}]:
    a later run with the same key replaces the earlier one. *)
Definition dict_of {A : Type} (runs : list (Z * list A)) : gmap Z (list A) :=
  foldl (fun d kv => <[kv.1 := kv.2]> d) ∅ runs.

(** [max(e.episode for e in l) if l else 0]. *)
Definition highest (all_episode_data : list Episode.t) : Z :=
  match all_episode_data with
  | [] => 0
  | e :: l => foldl Z.max (Episode.episode e) (Episode.episode <$> l)
  end.

(** One turn of [for i in episode_range]: [groups.get(i)], the truth test
    of the list, and [episodes.pop()], which takes the last element out of
    the list stored in [groups]. *)
Definition queue_step (st : gmap Z (list Episode.t) * list Episode.t) (i : Z)
  : gmap Z (list Episode.t) * list Episode.t :=
  match st.1 !! i with
  | Some episodes =>
      match last episodes with
      | Some x => (<[i := removelast episodes]> st.1, st.2 ++ [x])
      | None => st
      end
  | None => st
  end.

(** Lines 391-398: the queue built from the observed episodes for the
    numbers of [episode_range]. *)
Definition build_queue (all_episode_data : list Episode.t) (episode_range : list Z)
  : list Episode.t :=
  (foldl queue_step (dict_of (groupby Episode.episode all_episode_data), []) episode_range).2.

(** The selection rule in the spec's words: among the observed episodes
    numbered [n], the last one in source order. *)
Definition last_instance (n : Z) (observed : list Episode.t) : option Episode.t :=
  last (filter (fun e => Episode.episode e = n) observed).

(** ** Exceptions, the world and the controller monad *)

Inductive exn : Type :=
  | NotFoundError
  | ConnectionError (msg : string)
  | Exception (msg : string).

Definition str (e : exn) : string :=
  match e with
  | NotFoundError => ""
  | ConnectionError msg => msg
  | Exception msg => msg
  end.

Inductive outcome (A : Type) : Type :=
  | Returned (a : A)
  | Raised (e : exn).
Arguments Returned {A} a.
Arguments Raised {A} e.

(** What the controllers read and write: the two tables, the calls of
    [download_episodes] so far (oldest first) and the number of times the
    clock has been read. *)
Record world : Type := World {
  bangumi : list Bangumi.t;
  followed : gmap string Followed.t;
  downloads : list (list Download.t);
  clock : nat;
}.

Definition set_bangumi (rows : list Bangumi.t) (w : world) : world :=
  World rows (followed w) (downloads w) (clock w).
Definition set_followed (rows : gmap string Followed.t) (w : world) : world :=
  World (bangumi w) rows (downloads w) (clock w).

(** A controller step: it ends by returning or by raising, and in both
    cases leaves a world behind (a raise undoes nothing). *)
Definition M (A : Type) : Type := world -> outcome A * world.

Definition ret {A : Type} (a : A) : M A := fun w => (Returned a, w).
Definition raise {A : Type} (e : exn) : M A := fun w => (Raised e, w).
Definition bind {A B : Type} (c : M A) (k : A -> M B) : M B :=
  fun w =>
    match c w with
    | (Returned a, w') => k a w'
    | (Raised e, w') => (Raised e, w')
    end.

Notation "x <~ c ;; k" := (bind c (fun x => k))
  (at level 100, c at next level, right associativity).

(** [for x in l: body(x)]. *)
Fixpoint for_each {A : Type} (l : list A) (body : A -> M unit) : M unit :=
  match l with
  | [] => ret tt
  | x :: l' => _ <~ body x ;; for_each l' body
  end.

(** A [ControllerResult] with string values: the dict under construction. *)
Definition ControllerResult : Type := gmap string string.

(** The collaborators outside this file: the clock, the catalog's name
    match and refresh, the episode source, the script runner, the prompt
    of the clear-all deletion and the search back end. *)
Record services : Type := Services {
  time_time : nat -> Z;
  max_path : Z;
  debug : bool;
  name_contains : string -> string -> bool;
  get_updating_bangumi : list Bangumi.t -> bool;
  website_fetch : list Bangumi.t -> outcome (list Bangumi.t);
  get_maximum_episode : Bangumi.t -> option bool -> Z -> outcome (list Episode.t);
  get_model : string -> bool;
  script_download_queue : list Episode.t;
  failed_downloads : list Download.t;
  delete_followed : bool -> gmap string Followed.t -> bool * gmap string Followed.t;
  search_by_tag : string -> option string -> Z -> outcome (list Episode.t);
  search_by_keyword : string -> Z -> outcome (list Episode.t);
  episode_filter_regex : list Episode.t -> option string -> outcome (list Episode.t);
  remove_duplicated_bangumi : list Episode.t -> list Episode.t;
}.

(** ** The controllers *)

Section controllers.
Variable E : services.

(** [int(time.time())]. *)
Definition now_ : M Z :=
  fun w => (Returned (time_time E (clock w)),
            World (bangumi w) (followed w) (downloads w) (S (clock w))).

(** [download_episodes(tasks)]: handed over, fire and forget. *)
Definition download_episodes (tasks : list Download.t) : M unit :=
  fun w => (Returned tt,
            World (bangumi w) (followed w) (downloads w ++ [tasks]) (clock w)).

(** [obj.save()] on a [Followed] row. *)
Definition save (f : Followed.t) : M unit :=
  fun w => (Returned tt, set_followed (Followed.save f (followed w)) w).

(** Lines 68-78 of [add]: the watermark is fetched (or taken from the
    argument) and written after the session of lines 51-66 has been
    committed. *)
Definition add_episode (bangumi_obj : Bangumi.t) (followed_obj : Followed.t)
    (episode : option Z) : M ControllerResult :=
  n <~ match episode with
       | None =>
           fun w =>
             match get_maximum_episode E bangumi_obj None (max_path E) with
             | Returned episodes => (Returned (highest episodes), w)
             | Raised e => (Raised e, w)
             end
       | Some n => ret n
       end ;;
  _ <~ save (Followed.set_episode n followed_obj) ;;
  ret (<["message" := "add " +:+ Bangumi.name bangumi_obj +:+ " to subscribing bangumi list"]>
         (<["status" := "success"]> ∅)).

(** Lines 38-39 of [add]: the catalog is fetched when it lists nothing. *)
Definition refresh_catalog : M unit :=
  fun w =>
    if get_updating_bangumi E (bangumi w) then (Returned tt, w)
    else match website_fetch E (bangumi w) with
         | Returned rows => (Returned tt, set_bangumi rows w)
         | Raised e => (Raised e, w)
         end.

(** [add]: the series is resolved in the catalog, then the session of
    lines 51-66 reads the row of that name and commits a new row, or the
    switch to FOLLOWED, unless the row is FOLLOWED already. *)
Definition add (name : string) (episode : option Z) : M ControllerResult :=
  _ <~ refresh_catalog ;;
  fun w =>
    match Bangumi.get (fun b => name_contains E (Bangumi.name b) name) (bangumi w) with
    | None =>
        (Returned (<["message" := name +:+ " not found, please check the name"]>
                     (<["status" := "error"]> ∅)), w)
    | Some bangumi_obj =>
        match followed w !! Bangumi.name bangumi_obj with
        | None =>
            let followed_obj :=
              Followed.new Followed.STATUS_FOLLOWED (Bangumi.name bangumi_obj) 0 in
            add_episode bangumi_obj followed_obj episode
              (set_followed (Followed.save followed_obj (followed w)) w)
        | Some followed_obj =>
            if Followed.status followed_obj =? Followed.STATUS_FOLLOWED then
              (Returned (<["message" := Bangumi.name bangumi_obj +:+ " already followed"]>
                           (<["status" := "warning"]> ∅)), w)
            else
              let followed_obj :=
                Followed.set_status Followed.STATUS_FOLLOWED followed_obj in
              add_episode bangumi_obj followed_obj episode
                (set_followed (Followed.save followed_obj (followed w)) w)
        end
    end.

(** [delete]: the clear-all form is left to [Followed.delete_followed];
    the single-name form reads the row by name and saves it as DELETED. *)
Definition delete (name : string) (clear_all batch : bool) : M ControllerResult :=
  fun w =>
    if clear_all then
      match delete_followed E batch (followed w) with
      | (true, rows) =>
          (Returned (<["message" := "all subscriptions have been deleted"]>
                       (<["status" := "warning"]> ∅)), set_followed rows w)
      | (false, rows) => (Returned ∅, set_followed rows w)
      end
    else if negb (String.eqb name "") then
      match Followed.get name (followed w) with
      | Some followed_ =>
          (Returned (<["message" := "Bangumi " +:+ name +:+ " has been deleted"]>
                       (<["status" := "warning"]> ∅)),
           set_followed
             (Followed.save (Followed.set_status Followed.STATUS_DELETED followed_)
                (followed w)) w)
      | None =>
          (Returned (<["message" := "Bangumi " +:+ name +:+ " does not exist"]>
                       (<["status" := "error"]> ∅)), w)
      end
    else
      (Returned (<["message" := "Nothing has been done."]>
                   (<["status" := "warning"]> ∅)), w).

(** [mark]: a name that is not followed may still name a script, whose
    own row lives outside the two tables modelled here. *)
Definition mark (name : string) (episode : Z) : M ControllerResult :=
  fun w =>
    let done : ControllerResult :=
      <["message" := name +:+ " has been mark as episode: " +:+ pretty episode]>
        (<["status" := "success"]> ∅) in
    match Followed.get name (followed w) with
    | Some followed_obj =>
        (Returned done,
         set_followed (Followed.save (Followed.set_episode episode followed_obj)
                         (followed w)) w)
    | None =>
        if get_model E name then (Returned done, w)
        else
          (Returned (<["message" := "Subscribe or Script <" +:+ name +:+ "> does not exist."]>
                       (<["status" := "error"]> ∅)), w)
    end.

(** [status_]: [Followed.get] is called outside any [try], so a missing
    row raises; a row that is found is an object, which is true, so the
    [if not followed_obj] branch is never taken. *)
Definition status_ (name : string) (status : Z) : M ControllerResult :=
  if negb (bool_decide (status ∈ Followed.FOLLOWED_STATUS)) || (status =? 0) then
    ret (<["message" := "Invalid status: " +:+ pretty status]>
           (<["status" := "error"]> ∅))
  else
    fun w =>
      match Followed.get name (followed w) with
      | None => raise NotFoundError w
      | Some followed_obj =>
          (Returned (<["message" := "Followed<" +:+ name +:+ "> has been marked as status "
                                     +:+ pretty status]>
                       (<["status" := "success"]> ∅)),
           set_followed (Followed.save (Followed.set_status status followed_obj)
                           (followed w)) w)
      end.

(** Python's [list.sort(key=...)] is stable: equal keys keep their order.
    Insertion from the right is the same function on every input. *)
Fixpoint insert_by {A : Type} (key : A -> Z) (x : A) (l : list A) : list A :=
  match l with
  | [] => [x]
  | y :: l' => if key x <=? key y then x :: y :: l' else y :: insert_by key x l'
  end.
Definition sort {A : Type} (key : A -> Z) (l : list A) : list A :=
  foldr (insert_by key) [] l.

Record SearchOptions : Type := Options {
  opt_keyword : string;
  opt_count : Z;
  opt_regex : option string;
  opt_dupe : bool;
  opt_min_episode : option Z;
  opt_max_episode : option Z;
}.
Record SearchResult : Type := Result {
  res_status : string;
  res_message : string;
  res_options : SearchOptions;
  res_data : list Episode.t;
}.

(** The [try] body of [search], lines 258-270, up to the sorted data. *)
Definition search_data (keyword : string) (count : Z) (regex : option string)
    (dupe : bool) (min_episode max_episode : option Z) (tag : bool)
    (subtitle : option string) : outcome (list Episode.t) :=
  match (if tag then search_by_tag E keyword subtitle count
         else search_by_keyword E keyword count) with
  | Raised e => Raised e
  | Returned data =>
      match episode_filter_regex E data regex with
      | Raised e => Raised e
      | Returned data =>
          let data :=
            match min_episode with
            | Some m => filter (fun x => m ≤ Episode.episode x) data
            | None => data
            end in
          let data :=
            match max_episode with
            | Some m => filter (fun x => Episode.episode x ≤ m) data
            | None => data
            end in
          let data := if negb dupe then remove_duplicated_bangumi E data else data in
          Returned (sort Episode.episode data)
      end
  end.

Definition search (keyword : string) (count : Z) (regex : option string)
    (dupe : bool) (min_episode max_episode : option Z) (tag : bool)
    (subtitle : option string) : outcome SearchResult :=
  let options := Options keyword count regex dupe min_episode max_episode in
  match search_data keyword count regex dupe min_episode max_episode tag subtitle with
  | Returned data => Returned (Result "success" "" options data)
  | Raised e =>
      if debug E then Raised e
      else Returned (Result "error" (str e) options [])
  end.

(** The test of line 310: [follow.updated_time and
    int(follow.updated_time + 60 * 60 * 24) < now].  A zero (or null)
    [updated_time] is false and ends the test. *)
Definition stale (now : Z) (follow : Followed.t) : bool :=
  negb (Followed.updated_time follow =? 0)
  && (Followed.updated_time follow + 60 * 60 * 24 <? now).

(** Lines 309-312 of [update] for one listed row: a stale row is saved as
    FOLLOWED. *)
Definition sweep_one (now : Z) (rows : gmap string Followed.t) (follow : Followed.t)
  : gmap string Followed.t :=
  if stale now follow
  then Followed.save (Followed.set_status Followed.STATUS_FOLLOWED follow) rows
  else rows.

Definition sweep (now : Z) (rows : gmap string Followed.t) : gmap string Followed.t :=
  foldl (sweep_one now) rows (Followed.get_all_followed rows).

(** Lines 322-331: the rows to refresh, read before the loop. *)
Definition select_followed (names : list string) (rows : gmap string Followed.t)
  : list Followed.t :=
  match names with
  | [] => Followed.get_all_followed rows
  | _ => omap (fun n => Followed.get n rows) names
  end.

(** Lines 378-398 for one subscription: [subscribe] is the row listed
    before the loop, [followed_obj] the row read again inside it.  The
    result is the download queue; the row is saved on the way. *)
Definition reconcile (subscribe followed_obj : Followed.t)
    (all_episode_data : list Episode.t) : M (list Episode.t) :=
  let episode := highest all_episode_data in
  if Followed.episode subscribe <? episode then
    let episode_range := range (Followed.episode subscribe + 1) (episode + 1) in
    t <~ now_ ;;
    _ <~ save (Followed.set_updated_time t
                 (Followed.set_status Followed.STATUS_UPDATED
                    (Followed.set_episode episode followed_obj))) ;;
    ret (build_queue all_episode_data episode_range)
  else ret [].

(** Lines 356-412: the loop body for one listed row.  [continue] is a
    normal return of the body; only [ConnectionError] is caught around the
    fetch. *)
Definition update_one (download ignore : bool) (subscribe : Followed.t) : M unit :=
  fun w =>
    match Bangumi.get (fun b => String.eqb (Bangumi.name b) (Followed.bangumi_name subscribe))
            (bangumi w) with
    | None => (Returned tt, w)
    | Some bangumi_obj =>
        match Followed.get (Followed.bangumi_name subscribe) (followed w) with
        | None => (Returned tt, w)
        | Some followed_obj =>
            match get_maximum_episode E bangumi_obj (Some ignore) (max_path E) with
            | Raised (ConnectionError _) => (Returned tt, w)
            | Raised e => (Raised e, w)
            | Returned all_episode_data =>
                (download_queue <~ reconcile subscribe followed_obj all_episode_data ;;
                 if download then download_episodes (Download.of_queue download_queue)
                 else ret tt) w
            end
        end
    end.

(** [update]: the staleness sweep, the selection of rows, the retry of
    failed downloads, the script queue, then the loop.  The sweep over the
    scripts' own rows (lines 314-318) touches neither table. *)
Definition update (names : list string) (download not_ignore : bool) : M unit :=
  let ignore := negb not_ignore in
  now <~ now_ ;;
  _ <~ (fun w => (Returned tt, set_followed (sweep now (followed w)) w)) ;;
  updated_bangumi_obj <~ (fun w => (Returned (select_followed names (followed w)), w)) ;;
  _ <~ (if download then
          match failed_downloads E with
          | [] => ret tt
          | failed => download_episodes failed
          end
        else ret tt) ;;
  _ <~ (match script_download_queue E with
        | [] => ret tt
        | queue => if download then download_episodes (Download.of_queue queue) else ret tt
        end) ;;
  for_each updated_bangumi_obj (update_one download ignore).

End controllers.

(** ** Sample data *)

Definition ep (n : Z) (t : string) : Episode.t := Episode.mk "Show A" t "magnet:?xt" n.
Definition show_a : Bangumi.t := Bangumi.mk "Show A" ["1"; "2"].
Definition show_b : Bangumi.t := Bangumi.mk "Show B" [].
Definition sub (n : string) (e s u : Z) : Followed.t := Followed.mk n e s u [] [] [] None.

(** Services around a given episode source and search back end: the
    clock starts at 2000000, the catalog matches on a prefix and is never
    refreshed, there are no scripts, and the prompt of the clear-all
    deletion is declined. *)
Definition sample_services (fetch : Bangumi.t → outcome (list Episode.t))
    (found : outcome (list Episode.t)) : services :=
  Services (fun n => 2000000 + Z.of_nat n) 3 false
    (fun full part => String.prefix part full)
    (fun rows => true) (fun rows => Returned rows)
    (fun b _ _ => fetch b)
    (fun _ => false) [] []
    (fun _ rows => (false, rows))
    (fun _ _ _ => found) (fun _ _ => found)
    (fun data _ => Returned data) (fun data => data).

Definition observed_a : list Episode.t := [ep 4 "main"; ep 4 "alt"; ep 6 "main"].

(** Show A is reachable, Show B is not. *)
Definition fetch_a (b : Bangumi.t) : outcome (list Episode.t) :=
  if String.eqb (Bangumi.name b) "Show A" then Returned observed_a
  else Raised (ConnectionError "unreachable").
Definition fetch_down (b : Bangumi.t) : outcome (list Episode.t) :=
  Raised (ConnectionError "unreachable").

Definition E0 : services := sample_services fetch_a (Returned [ep 3 "c"; ep 1 "a"; ep 2 "b"]).
Definition E_down : services := sample_services fetch_down (Raised (Exception "timeout")).

(** Show A is reachable, the fetch of Show B fails with an exception that
    is not a [ConnectionError] (a read timeout of the transport). *)
Definition fetch_timeout (b : Bangumi.t) : outcome (list Episode.t) :=
  if String.eqb (Bangumi.name b) "Show A" then Returned observed_a
  else Raised (Exception "ReadTimeout").
Definition E_timeout : services := sample_services fetch_timeout (Returned []).

(** An episode source that reports nothing. *)
Definition E_empty : services := sample_services (fun _ => Returned []) (Returned []).

Definition world_of (rows : list Followed.t) : world :=
  World [show_a; show_b] (foldr Followed.save ∅ rows) [] 0.

(** ** The filter controller *)

(** A row of the subtitle-group table. *)
Module Subtitle.
Record t : Type := mk {
  id : string;
  name : string;
}.
End Subtitle.

Definition comma : Ascii.ascii := Ascii.ascii_of_nat 44.
Definition blank : Ascii.ascii := Ascii.ascii_of_nat 32.

(** [s.split(",")]: the pieces between the commas, empty pieces kept; the
    empty string gives one empty piece. *)
Fixpoint split_comma (s : string) : list string :=
  match s with
  | EmptyString => [EmptyString]
  | String c s' =>
      if Ascii.eqb c comma then EmptyString :: split_comma s'
      else match split_comma s' with
           | piece :: rest => String c piece :: rest
           | [] => [String c EmptyString]
           end
  end.

(** What [filter_] needs beyond [services]: Python's [str.strip] and the
    two look-ups of the subtitle-group table. *)
Record subtitle_services : Type := SubtitleServices {
  strip : string -> string;
  get_subtitle_by_name : list string -> list Subtitle.t;
  get_subtitle_by_id : list string -> list Subtitle.t;
}.

Definition set_subtitle (l : list string) (f : Followed.t) : Followed.t :=
  Followed.mk (Followed.bangumi_name f) (Followed.episode f) (Followed.status f)
    (Followed.updated_time f) l (Followed.include f) (Followed.exclude f) (Followed.regex f).
Definition set_include (l : list string) (f : Followed.t) : Followed.t :=
  Followed.mk (Followed.bangumi_name f) (Followed.episode f) (Followed.status f)
    (Followed.updated_time f) (Followed.subtitle f) l (Followed.exclude f) (Followed.regex f).
Definition set_exclude (l : list string) (f : Followed.t) : Followed.t :=
  Followed.mk (Followed.bangumi_name f) (Followed.episode f) (Followed.status f)
    (Followed.updated_time f) (Followed.subtitle f) (Followed.include f) l (Followed.regex f).
Definition set_regex (r : option string) (f : Followed.t) : Followed.t :=
  Followed.mk (Followed.bangumi_name f) (Followed.episode f) (Followed.status f)
    (Followed.updated_time f) (Followed.subtitle f) (Followed.include f) (Followed.exclude f) r.

(** The [data] entry of the result of [filter_]. *)
Record FilterData : Type := Data {
  data_name : string;
  data_subtitle_group : list string;
  data_followed : list string;
  data_include : list string;
  data_exclude : list string;
  data_regex : option string;
}.
Record FilterResult : Type := Filtered {
  filter_status : string;
  filter_message : string;
  filter_data : option FilterData;
}.

(** The double quote of the message of line 100. *)
Definition dquote : string := String (Ascii.ascii_of_nat 34) EmptyString.

Section filter_controller.
Variable E : services.
Variable S : subtitle_services.

(** Lines 105-117 of [filter_]: each option that is given replaces its
    column of the row. *)
Definition apply_filters (bangumi_obj : Bangumi.t)
    (subtitle include exclude regex : option string) (row : Followed.t) : Followed.t :=
  let row :=
    match subtitle with
    | Some subtitle =>
        let names := strip S <$> split_comma subtitle in
        let ids := Subtitle.id <$> get_subtitle_by_name S names in
        set_subtitle
          (filter (fun s => s ∈ Bangumi.subtitle_group bangumi_obj) ids) row
    | None => row
    end in
  let row :=
    match include with
    | Some include => set_include (strip S <$> split_comma include) row
    | None => row
    end in
  let row :=
    match exclude with
    | Some exclude => set_exclude (strip S <$> split_comma exclude) row
    | None => row
    end in
  match regex with
  | Some regex => set_regex (Some regex) row
  | None => row
  end.

Definition filter_ (name : string) (subtitle include exclude regex : option string)
  : M FilterResult :=
  fun w =>
    match Bangumi.get (fun b => name_contains E (Bangumi.name b) name) (bangumi w) with
    | None =>
        (Returned (Filtered "error" ("Bangumi " +:+ name +:+ " does not exist.") None), w)
    | Some bangumi_obj =>
        match Followed.get (Bangumi.name bangumi_obj) (followed w) with
        | None =>
            (Returned
               (Filtered "error"
                  ("Bangumi " +:+ Bangumi.name bangumi_obj
                   +:+ " has not subscribed, try 'bgmi add " +:+ dquote
                   +:+ Bangumi.name bangumi_obj +:+ dquote +:+ "'.") None), w)
        | Some followed_filter_obj =>
            let followed_filter_obj :=
              apply_filters bangumi_obj subtitle include exclude regex followed_filter_obj in
            let subtitle_list :=
              Subtitle.name <$> get_subtitle_by_id S (Bangumi.subtitle_group bangumi_obj) in
            (Returned
               (Filtered "success" ""
                  (Some (Data (Bangumi.name bangumi_obj) subtitle_list
                           (match Followed.subtitle followed_filter_obj with
                            | [] => []
                            | ids => Subtitle.name <$> get_subtitle_by_id S ids
                            end)
                           (Followed.include followed_filter_obj)
                           (Followed.exclude followed_filter_obj)
                           (Followed.regex followed_filter_obj)))),
             set_followed (Followed.save followed_filter_obj (followed w)) w)
        end
    end.

End filter_controller.

(** A subtitle table with two groups, and a [strip] that removes the
    blanks at both ends. *)
Fixpoint lstrip (s : string) : string :=
  match s with
  | String c s' => if Ascii.eqb c blank then lstrip s' else s
  | EmptyString => EmptyString
  end.
Definition sample_subtitles : list Subtitle.t :=
  [Subtitle.mk "1" "Group One"; Subtitle.mk "2" "Group Two"; Subtitle.mk "9" "Group Nine"].
Definition S0 : subtitle_services :=
  SubtitleServices
    (fun s => String.rev (lstrip (String.rev (lstrip s))))
    (fun names => filter (fun g => Subtitle.name g ∈ names) sample_subtitles)
    (fun ids => filter (fun g => Subtitle.id g ∈ ids) sample_subtitles).

(** The watermark [add] writes: the argument, or the highest number the
    episode source reports. *)
Definition add_watermark (E : services) (bangumi_obj : Bangumi.t) (episode : option Z)
    (n : Z) : Prop :=
  match episode with
  | Some m => n = m
  | None => ∃ episodes,
      get_maximum_episode E bangumi_obj None (max_path E) = Returned episodes
      ∧ n = highest episodes
  end.

(** A deleted subscription that carries filters. *)
Definition deleted_a : Followed.t :=
  Followed.mk "Show A" 2 0 77 ["1"] ["720"] [] (Some "x").

(** [",".join(pieces)]. *)
Fixpoint join_comma (pieces : list string) : string :=
  match pieces with
  | [] => EmptyString
  | [piece] => piece
  | piece :: rest => piece +:+ String comma (join_comma rest)
  end.

(** The characters of a string. *)
Fixpoint chars (s : string) : list Ascii.ascii :=
  match s with
  | EmptyString => []
  | String c s' => c :: chars s'
  end.

(** ** Facts about the building blocks *)

Lemma foldl_max_ge (l : list Z) (a : Z) : a ≤ foldl Z.max a l.
Proof.
  revert a. induction l as [|x l IH]; intros a; simpl; [lia|].
  specialize (IH (Z.max a x)). lia.
Qed.

Lemma foldl_max_upper (l : list Z) (a x : Z) : x ∈ l → x ≤ foldl Z.max a l.
Proof.
  revert a. induction l as [|y l IH]; intros a Hx; simpl.
  - by apply elem_of_nil in Hx.
  - apply elem_of_cons in Hx as [->|Hx].
    + pose proof (foldl_max_ge l (Z.max a y)). lia.
    + by apply IH.
Qed.

Lemma foldl_max_elem (l : list Z) (a : Z) : foldl Z.max a l ∈ a :: l.
Proof.
  revert a. induction l as [|y l IH]; intros a; simpl.
  - apply elem_of_cons. by left.
  - specialize (IH (Z.max a y)). apply elem_of_cons in IH as [Heq|Hin].
    + rewrite Heq. destruct (Z.max_spec a y) as [[_ ->]|[_ ->]].
      * apply elem_of_cons. right. apply elem_of_cons. by left.
      * apply elem_of_cons. by left.
    + apply elem_of_cons. right. apply elem_of_cons. by right.
Qed.

(** [highest] is the maximum of the observed numbers. *)
Lemma highest_upper (obs : list Episode.t) (e : Episode.t) :
  e ∈ obs → Episode.episode e ≤ highest obs.
Proof.
  destruct obs as [|e0 l]; intros He.
  - by apply elem_of_nil in He.
  - simpl. apply elem_of_cons in He as [->|He].
    + apply foldl_max_ge.
    + apply foldl_max_upper. apply list_elem_of_fmap. by exists e.
Qed.

Lemma highest_attained (obs : list Episode.t) :
  obs ≠ [] → ∃ e, e ∈ obs ∧ Episode.episode e = highest obs.
Proof.
  destruct obs as [|e0 l]; [done|]. intros _. simpl.
  pose proof (foldl_max_elem (Episode.episode <$> l) (Episode.episode e0)) as H.
  apply elem_of_cons in H as [H|H].
  - exists e0. split; [apply elem_of_cons; by left | done].
  - apply list_elem_of_fmap in H as (e & He & Hin).
    exists e. split; [apply elem_of_cons; by right | done].
Qed.

Section groupby_facts.
Context {A : Type} (key : A → Z).

(** The runs of [groupby], concatenated, give the list back. *)
Lemma groupby_concat (l : list A) : concat (snd <$> groupby key l) = l.
Proof.
  induction l as [|x l IH]; [done|]. simpl.
  destruct (groupby key l) as [|[k g] rest]; simpl in *.
  - by rewrite <- IH.
  - case_decide; simpl; by rewrite <- IH.
Qed.

(** Every run is non-empty and carries its key on all its elements. *)
Lemma groupby_runs (l : list A) : Forall (run_ok key) (groupby key l).
Proof.
  induction l as [|x l IH]; simpl; [constructor|].
  destruct (groupby key l) as [|[k g] rest].
  - repeat constructor; done.
  - inversion IH as [|? ? [Hne Hall] Hrest]; subst. case_decide.
    + constructor; [|done]. split; [done|]. constructor; done.
    + constructor; [repeat constructor; done|]. constructor; [by split|done].
Qed.

Lemma dict_of_snoc (runs : list (Z * list A)) (kg : Z * list A) :
  dict_of (runs ++ [kg]) = <[kg.1 := kg.2]> (dict_of runs).
Proof. unfold dict_of. by rewrite foldl_snoc. Qed.

Lemma filter_all (P : A → Prop) `{!∀ x, Decision (P x)} (l : list A) :
  Forall P l → filter P l = l.
Proof.
  induction 1 as [|x l Hx _ IH]; [done|].
  rewrite filter_cons_True by done. by rewrite IH.
Qed.

Lemma filter_none (P : A → Prop) `{!∀ x, Decision (P x)} (l : list A) :
  Forall (fun x => ¬ P x) l → filter P l = [].
Proof.
  induction 1 as [|x l Hx _ IH]; [done|].
  by rewrite filter_cons_False.
Qed.

(** What [groups.get(n)] followed by [pop()] yields: the last element
    with key [n] of the concatenated runs. *)
Lemma dict_of_last (runs : list (Z * list A)) (n : Z) :
  Forall (run_ok key) runs →
  dict_of runs !! n ≫= last = last (filter (fun x => key x = n) (concat (snd <$> runs))).
Proof.
  induction runs as [|[k g] runs IH] using rev_ind; intros Hok.
  - done.
  - apply Forall_app in Hok as [Hok Hkg].
    inversion Hkg as [|? ? [Hne Hall] _]; subst. simpl in *.
    rewrite dict_of_snoc, fmap_app, concat_app, filter_app, last_app. simpl.
    rewrite app_nil_r.
    destruct (decide (k = n)) as [->|Hkn].
    + rewrite lookup_insert_eq. simpl. rewrite filter_all by done.
      apply last_is_Some in Hne as [x Hx]. by rewrite Hx.
    + rewrite lookup_insert_ne by done. rewrite filter_none.
      * simpl. by apply IH.
      * eapply Forall_impl; [exact Hall|]. simpl. intros x Hx. congruence.
Qed.

Lemma groups_last (l : list A) (n : Z) :
  dict_of (groupby key l) !! n ≫= last = last (filter (fun x => key x = n) l).
Proof.
  rewrite dict_of_last by apply groupby_runs. by rewrite groupby_concat.
Qed.
End groupby_facts.

Lemma omap_agree {X Y : Type} (f g : X → option Y) (l : list X) :
  (∀ x, x ∈ l → f x = g x) → omap f l = omap g l.
Proof.
  intros H. apply list_omap_ext. induction l as [|x l IH]; constructor.
  - apply H, elem_of_cons. by left.
  - apply IH. intros y Hy. apply H, elem_of_cons. by right.
Qed.

(** The loop over [episode_range]: [pop] changes the list stored under
    [i] only, and no number of the range comes twice, so every turn sees
    the groups as they were built. *)
Lemma queue_fold (numbers : list Z) (d : gmap Z (list Episode.t)) (q : list Episode.t) :
  NoDup numbers →
  (foldl queue_step (d, q) numbers).2 = q ++ omap (fun i => d !! i ≫= last) numbers.
Proof.
  revert d q. induction numbers as [|i numbers IH]; intros d q Hnd.
  - simpl. by rewrite app_nil_r.
  - apply NoDup_cons in Hnd as [Hi Hnd]. simpl foldl. csimpl.
    unfold queue_step at 2. simpl.
    destruct (d !! i) as [episodes|] eqn:Hd; simpl.
    + destruct (last episodes) as [x|] eqn:Hlast; simpl.
      * rewrite IH by done. rewrite <- app_assoc. simpl. do 2 f_equal.
        apply omap_agree. intros j Hj.
        rewrite lookup_insert_ne; [done|]. intros ->. contradiction.
      * by apply IH.
    + by apply IH.
Qed.

(** The queue of lines 391-398, one selection per number of the range. *)
Lemma build_queue_spec (obs : list Episode.t) (numbers : list Z) :
  NoDup numbers →
  build_queue obs numbers = omap (fun n => last_instance n obs) numbers.
Proof.
  intros Hnd. unfold build_queue. rewrite queue_fold by done. simpl.
  apply omap_agree. intros n _. apply groups_last.
Qed.

Lemma last_instance_number (obs : list Episode.t) (n : Z) (e : Episode.t) :
  last_instance n obs = Some e → Episode.episode e = n ∧ e ∈ obs.
Proof.
  unfold last_instance. intros H. apply last_Some_elem_of in H.
  by apply list_elem_of_filter in H.
Qed.

Lemma last_instance_None (obs : list Episode.t) (n : Z) :
  last_instance n obs = None ↔ ∀ e, e ∈ obs → Episode.episode e ≠ n.
Proof.
  unfold last_instance. rewrite last_None. split.
  - intros H e He Hn. eapply filter_nil_not_elem_of; [exact H|exact Hn|exact He].
  - intros H. apply filter_none. apply Forall_forall. intros e He. by apply H.
Qed.

(** Selections along an increasing list of numbers are increasing. *)
Lemma selected_increasing (obs : list Episode.t) (numbers : list Z) :
  StronglySorted Z.lt numbers →
  StronglySorted Z.lt (Episode.episode <$> omap (fun n => last_instance n obs) numbers).
Proof.
  induction 1 as [|n numbers Hs IH Hall]; csimpl; [constructor|].
  destruct (last_instance n obs) as [e|] eqn:He; csimpl; [|done].
  constructor; [done|].
  apply last_instance_number in He as [-> _].
  apply Forall_forall. intros m Hm.
  apply list_elem_of_fmap in Hm as (e' & -> & He').
  apply list_elem_of_omap in He' as (k & Hk & Hsel).
  apply last_instance_number in Hsel as [-> _].
  rewrite Forall_forall in Hall. by apply Hall.
Qed.

Lemma range_increasing (start stop : Z) : StronglySorted Z.lt (range start stop).
Proof.
  unfold range, seqZ. generalize (Z.to_nat (stop - start)) as len.
  generalize 0%nat as from. intros from len. revert from.
  induction len as [|len IH]; intros from; simpl; constructor.
  - apply IH.
  - apply Forall_forall. intros k Hk.
    apply list_elem_of_fmap in Hk as (j & -> & Hj).
    apply elem_of_seq in Hj. lia.
Qed.

Lemma elem_of_range (start stop k : Z) : k ∈ range start stop ↔ start ≤ k < stop.
Proof. unfold range. rewrite elem_of_seqZ. lia. Qed.

Lemma NoDup_range (start stop : Z) : NoDup (range start stop).
Proof. apply NoDup_seqZ. Qed.

(** Among the selections, those numbered [n] are the selection for [n]
    when [n] is on the list, and none otherwise. *)
Lemma selected_filter (obs : list Episode.t) (numbers : list Z) (n : Z) :
  NoDup numbers →
  filter (fun e => Episode.episode e = n) (omap (fun k => last_instance k obs) numbers)
  = if decide (n ∈ numbers) then option_list (last_instance n obs) else [].
Proof.
  induction 1 as [|k numbers Hk Hnd IH].
  - csimpl. destruct (decide (n ∈ [])) as [Hin|_]; [by apply elem_of_nil in Hin|done].
  - assert (filter (λ e, Episode.episode e = n)
              (omap (λ k0, last_instance k0 obs) (k :: numbers))
            = (if decide (k = n) then option_list (last_instance k obs) else [])
              ++ filter (λ e, Episode.episode e = n)
                   (omap (λ k0, last_instance k0 obs) numbers)) as ->.
    { csimpl. destruct (last_instance k obs) as [e|] eqn:He; csimpl.
      - apply last_instance_number in He as [He _].
        destruct (decide (k = n)).
        + rewrite filter_cons_True by (simpl; congruence). done.
        + rewrite filter_cons_False by (simpl; congruence). done.
      - by destruct (decide (k = n)). }
    rewrite IH. destruct (decide (k = n)) as [->|Hkn].
    + rewrite (decide_False (P := n ∈ numbers)) by done.
      rewrite decide_True by (apply elem_of_cons; by left).
      by rewrite app_nil_r.
    + simpl. destruct (decide (n ∈ numbers)) as [Hin|Hnin].
      * rewrite decide_True; [done|]. apply elem_of_cons. by right.
      * rewrite decide_False; [done|]. intros [?|?]%elem_of_cons; congruence.
Qed.

Lemma last_instance_split (obs : list Episode.t) (n : Z) (x : Episode.t) :
  last_instance n obs = Some x →
  ∃ before after, obs = before ++ x :: after ∧ Episode.episode x = n
                  ∧ ∀ e, e ∈ after → Episode.episode e ≠ n.
Proof.
  unfold last_instance. induction obs as [|y obs IH] using rev_ind; [done|].
  rewrite filter_app. destruct (decide (Episode.episode y = n)) as [Hy|Hy].
  - rewrite (filter_cons_True _ y []) by done. rewrite filter_nil, last_snoc.
    intros [= ->]. exists obs, []. split_and!; [done|done|].
    intros e He. by apply elem_of_nil in He.
  - rewrite (filter_cons_False _ y []) by done. rewrite filter_nil, app_nil_r.
    intros H. destruct (IH H) as (before & after & -> & Hx & Hafter).
    exists before, (after ++ [y]). split_and!; [by rewrite <- app_assoc|done|].
    intros e [He|He]%elem_of_app; [by apply Hafter|].
    apply list_elem_of_singleton in He as ->. done.
Qed.

(** ** Reconciliation *)

Lemma reconcile_advance (E : services) (subscribe followed_obj : Followed.t)
    (obs : list Episode.t) (w : world) :
  Followed.episode subscribe < highest obs →
  reconcile E subscribe followed_obj obs w
  = (Returned (omap (fun n => last_instance n obs)
                 (range (Followed.episode subscribe + 1) (highest obs + 1))),
     World (bangumi w)
       (Followed.save
          (Followed.set_updated_time (time_time E (clock w))
             (Followed.set_status Followed.STATUS_UPDATED
                (Followed.set_episode (highest obs) followed_obj)))
          (followed w))
       (downloads w) (S (clock w))).
Proof.
  intros Hlt. unfold reconcile.
  destruct (Z.ltb_spec (Followed.episode subscribe) (highest obs)); [|lia].
  unfold bind, now_, save, ret, set_followed. simpl.
  by rewrite build_queue_spec by apply NoDup_range.
Qed.

Lemma reconcile_idle (E : services) (subscribe followed_obj : Followed.t)
    (obs : list Episode.t) (w : world) :
  highest obs ≤ Followed.episode subscribe →
  reconcile E subscribe followed_obj obs w = (Returned [], w).
Proof.
  intros Hle. unfold reconcile.
  destruct (Z.ltb_spec (Followed.episode subscribe) (highest obs)); [lia|done].
Qed.

(** C1: when the highest observed number exceeds the watermark of the
    subscription, the reconciliation step of [update] returns a download
    queue whose episode numbers are strictly increasing and all strictly
    greater than that watermark. *)
Theorem update_queue_increasing (E : services) (subscribe followed_obj : Followed.t)
    (obs : list Episode.t) (w : world) :
  Followed.episode subscribe < highest obs →
  ∃ queue w',
    reconcile E subscribe followed_obj obs w = (Returned queue, w')
    ∧ StronglySorted Z.lt (Episode.episode <$> queue)
    ∧ Forall (fun e => Followed.episode subscribe < Episode.episode e) queue.
Proof.
  intros Hlt. eexists _, _. split; [by apply reconcile_advance|]. split.
  - apply selected_increasing, range_increasing.
  - apply Forall_forall. intros e He.
    apply list_elem_of_omap in He as (n & Hn & Hsel).
    apply last_instance_number in Hsel as [-> _].
    apply elem_of_range in Hn. lia.
Qed.

Lemma update_queue_increasing_witness :
  Followed.episode (sub "Show A" 3 1 0) < highest observed_a
  ∧ ∃ queue w',
      reconcile E0 (sub "Show A" 3 1 0) (sub "Show A" 3 1 0) observed_a
        (world_of [sub "Show A" 3 1 0]) = (Returned queue, w')
      ∧ StronglySorted Z.lt (Episode.episode <$> queue)
      ∧ Forall (fun e => Followed.episode (sub "Show A" 3 1 0) < Episode.episode e) queue.
Proof.
  split; [reflexivity|]. apply update_queue_increasing. reflexivity.
Defined.

(** C2, as amended: for a subscription whose stored row is the one
    listed for the cycle (the series has not been reconciled earlier in
    the same cycle), a turn of the refresh loop whose observed list is
    empty while the watermark is not negative, or non-empty with a
    maximum at or below the current watermark, saves nothing: status,
    watermark and updated_time stay as they are, like the rest of the
    table, and the queue it emits is empty. *)
Theorem update_no_new_episode (E : services) (download ignore : bool)
    (subscribe : Followed.t) (obs : list Episode.t) (w : world) (bangumi_obj : Bangumi.t) :
  followed w !! Followed.bangumi_name subscribe = Some subscribe →
  Bangumi.get (fun b => String.eqb (Bangumi.name b) (Followed.bangumi_name subscribe))
    (bangumi w) = Some bangumi_obj →
  get_maximum_episode E bangumi_obj (Some ignore) (max_path E) = Returned obs →
  (obs = [] ∧ 0 ≤ Followed.episode subscribe)
  ∨ (obs ≠ [] ∧ highest obs ≤ Followed.episode subscribe) →
  reconcile E subscribe subscribe obs w = (Returned [], w)
  ∧ update_one E download ignore subscribe w
    = (Returned tt,
       World (bangumi w) (followed w)
         (downloads w ++ (if download then [Download.of_queue []] else [])) (clock w)).
Proof.
  intros Hrow Hb Hfetch Hobs.
  assert (highest obs ≤ Followed.episode subscribe) as Hle
    by (destruct Hobs as [[-> Hw]|[_ Hle]]; done).
  split; [by apply reconcile_idle|].
  unfold update_one, Followed.get. rewrite Hb, Hrow, Hfetch.
  unfold bind. rewrite reconcile_idle by done.
  destruct download; simpl; [done|]. rewrite app_nil_r. by destruct w.
Qed.

Lemma update_no_new_episode_witness :
  followed (world_of [sub "Show A" 6 1 0]) !! Followed.bangumi_name (sub "Show A" 6 1 0)
  = Some (sub "Show A" 6 1 0)
  ∧ ((observed_a = [] ∧ 0 ≤ Followed.episode (sub "Show A" 6 1 0))
     ∨ (observed_a ≠ [] ∧ highest observed_a ≤ Followed.episode (sub "Show A" 6 1 0)))
  ∧ reconcile E0 (sub "Show A" 6 1 0) (sub "Show A" 6 1 0) observed_a
      (world_of [sub "Show A" 6 1 0])
    = (Returned [], world_of [sub "Show A" 6 1 0])
  ∧ update_one E0 true true (sub "Show A" 6 1 0) (world_of [sub "Show A" 6 1 0])
    = (Returned tt,
       World (bangumi (world_of [sub "Show A" 6 1 0]))
         (followed (world_of [sub "Show A" 6 1 0]))
         (downloads (world_of [sub "Show A" 6 1 0]) ++ [Download.of_queue []])
         (clock (world_of [sub "Show A" 6 1 0]))).
Proof.
  assert ((observed_a = [] ∧ 0 ≤ Followed.episode (sub "Show A" 6 1 0))
          ∨ (observed_a ≠ [] ∧ highest observed_a ≤ Followed.episode (sub "Show A" 6 1 0)))
    as H by (right; split; [discriminate|vm_compute; discriminate]).
  split; [reflexivity|]. split; [exact H|].
  exact (update_no_new_episode E0 true true (sub "Show A" 6 1 0) observed_a
           (world_of [sub "Show A" 6 1 0]) show_a eq_refl eq_refl eq_refl H).
Defined.

(** C2 as stated fails in two ways.  The loop compares the observed
    maximum with the row as listed before the loop, not with the stored
    one: when a name is given twice, the second turn meets a stored
    watermark of 6 and an observed maximum of 6, and still stamps
    updated_time anew and emits the queue 4, 6 again.  And the maximum of
    no episodes counts as 0: a subscription marked at episode -1, with
    nothing observed, moves to UPDATED with watermark 0. *)
Lemma update_stale_copy_or_negative_watermark :
  (followed (World [show_a; show_b] {["Show A" := sub "Show A" 6 2 2000001]}
               [Download.of_queue [ep 4 "alt"; ep 6 "main"]] 2) !! "Show A"
   = Some (sub "Show A" 6 2 2000001)
   ∧ observed_a ≠ []
   ∧ highest observed_a ≤ Followed.episode (sub "Show A" 6 2 2000001)
   ∧ update_one E0 true true (sub "Show A" 3 1 0)
       (World [show_a; show_b] {["Show A" := sub "Show A" 6 2 2000001]}
          [Download.of_queue [ep 4 "alt"; ep 6 "main"]] 2)
     = (Returned tt,
        World [show_a; show_b] {["Show A" := sub "Show A" 6 2 2000002]}
          [Download.of_queue [ep 4 "alt"; ep 6 "main"];
           Download.of_queue [ep 4 "alt"; ep 6 "main"]] 3))
  ∧ (followed (world_of [sub "Show A" (-1) 1 0]) !! "Show A" = Some (sub "Show A" (-1) 1 0)
     ∧ get_maximum_episode E_empty show_a (Some true) (max_path E_empty) = Returned []
     ∧ update_one E_empty true true (sub "Show A" (-1) 1 0)
         (world_of [sub "Show A" (-1) 1 0])
       = (Returned tt,
          World [show_a; show_b] {["Show A" := sub "Show A" 0 2 2000000]}
            [Download.of_queue []] 1)).
Proof.
  split; [split_and!|split_and!]; try (vm_compute; reflexivity).
  - discriminate.
  - vm_compute. discriminate.
Qed.

(** The world of the first part is the one a cycle reaches after its
    first turn when the name is given twice. *)
Lemma update_name_given_twice :
  update E0 ["Show A"; "Show A"] true false (world_of [sub "Show A" 3 1 0])
  = (Returned tt,
     World [show_a; show_b] {["Show A" := sub "Show A" 6 2 2000002]}
       [Download.of_queue [ep 4 "alt"; ep 6 "main"];
        Download.of_queue [ep 4 "alt"; ep 6 "main"]] 3).
Proof. vm_compute. reflexivity. Qed.

(** A subscription marked at episode -1, reconciled with an empty
    observed list, moves to UPDATED with watermark 0 and a fresh
    updated_time, since the maximum of no episodes counts as 0. *)
Lemma update_empty_list_negative_watermark :
  (@nil Episode.t = [] ∨ highest [] ≤ Followed.episode (sub "Show A" (-1) 1 0))
  ∧ followed (world_of [sub "Show A" (-1) 1 0]) !! "Show A" = Some (sub "Show A" (-1) 1 0)
  ∧ reconcile E0 (sub "Show A" (-1) 1 0) (sub "Show A" (-1) 1 0) []
      (world_of [sub "Show A" (-1) 1 0])
    = (Returned [],
       World [show_a; show_b] {["Show A" := sub "Show A" 0 2 2000000]} [] 1).
Proof.
  split; [by left|]. split; vm_compute; reflexivity.
Qed.

(** The state of that counterexample is one the controllers produce:
    [mark] writes any integer as the watermark. *)
Lemma mark_accepts_negative_episode :
  snd (mark E0 "Show A" (-1) (world_of [sub "Show A" 5 1 0]))
  = world_of [sub "Show A" (-1) 1 0].
Proof. reflexivity. Qed.

(** C3: for every number n above the watermark and up to the highest
    observed number, if some observed episode is numbered n then the queue
    holds exactly one episode numbered n, the last such episode of the
    observed list in source order; if none is, the queue holds no episode
    numbered n. *)
Theorem update_queue_last_instance (E : services) (subscribe followed_obj : Followed.t)
    (obs : list Episode.t) (w : world) (n : Z) :
  Followed.episode subscribe < n ≤ highest obs →
  ∃ queue w',
    reconcile E subscribe followed_obj obs w = (Returned queue, w')
    ∧ ((∃ e, e ∈ obs ∧ Episode.episode e = n) →
       ∃ x before after,
         obs = before ++ x :: after ∧ Episode.episode x = n
         ∧ (∀ e, e ∈ after → Episode.episode e ≠ n)
         ∧ filter (fun e => Episode.episode e = n) queue = [x])
    ∧ ((∀ e, e ∈ obs → Episode.episode e ≠ n) →
       filter (fun e => Episode.episode e = n) queue = []).
Proof.
  intros [Hlo Hhi]. eexists _, _. split; [apply reconcile_advance; lia|].
  rewrite selected_filter by apply NoDup_range.
  rewrite decide_True by (apply elem_of_range; lia). split.
  - intros (e & He & Hn).
    destruct (last_instance n obs) as [x|] eqn:Hx.
    + destruct (last_instance_split _ _ _ Hx) as (before & after & Hobs & Hxn & Hafter).
      by exists x, before, after.
    + exfalso. by eapply last_instance_None in Hx.
  - intros Hnone. apply last_instance_None in Hnone. by rewrite Hnone.
Qed.

Lemma update_queue_last_instance_witness :
  Followed.episode (sub "Show A" 3 1 0) < 4 ≤ highest observed_a
  ∧ ∃ queue w',
      reconcile E0 (sub "Show A" 3 1 0) (sub "Show A" 3 1 0) observed_a
        (world_of [sub "Show A" 3 1 0]) = (Returned queue, w')
      ∧ ((∃ e, e ∈ observed_a ∧ Episode.episode e = 4) →
         ∃ x before after,
           observed_a = before ++ x :: after ∧ Episode.episode x = 4
           ∧ (∀ e, e ∈ after → Episode.episode e ≠ 4)
           ∧ filter (fun e => Episode.episode e = 4) queue = [x])
      ∧ ((∀ e, e ∈ observed_a → Episode.episode e ≠ 4) →
         filter (fun e => Episode.episode e = 4) queue = []).
Proof.
  assert (Followed.episode (sub "Show A" 3 1 0) < 4 ≤ highest observed_a) as H
    by (split; vm_compute; [reflexivity|discriminate]).
  split; [exact H|]. exact (update_queue_last_instance E0 _ _ _ _ 4 H).
Defined.

(** The spec's example: watermark 3, observed 4, 4 (alternative group), 6. *)
Example reconcile_show_a :
  reconcile E0 (sub "Show A" 3 1 0) (sub "Show A" 3 1 0) observed_a
    (world_of [sub "Show A" 3 1 0])
  = (Returned [ep 4 "alt"; ep 6 "main"],
     World [show_a; show_b] {["Show A" := sub "Show A" 6 2 2000000]} [] 1).
Proof. vm_compute. reflexivity. Qed.

(** ** The staleness sweep *)

Lemma sweep_one_other (now : Z) (rows : gmap string Followed.t) (x : Followed.t) (k : string) :
  Followed.bangumi_name x ≠ k → sweep_one now rows x !! k = rows !! k.
Proof.
  intros Hk. unfold sweep_one, Followed.save.
  destruct (stale now x); [by rewrite lookup_insert_ne|done].
Qed.

(** Rows listed under other names leave the row of [k] alone. *)
Lemma sweep_fold_other (now : Z) (l : list Followed.t) (rows : gmap string Followed.t)
    (k : string) :
  k ∉ Followed.bangumi_name <$> l → foldl (sweep_one now) rows l !! k = rows !! k.
Proof.
  revert rows. induction l as [|x l IH]; intros rows Hk; [done|]. simpl.
  rewrite fmap_cons in Hk. apply not_elem_of_cons in Hk as [Hx Hl].
  rewrite IH by done. by apply sweep_one_other.
Qed.

Lemma sweep_fold_listed (now : Z) (l : list Followed.t) (rows : gmap string Followed.t)
    (f : Followed.t) :
  NoDup (Followed.bangumi_name <$> l) → f ∈ l →
  rows !! Followed.bangumi_name f = Some f →
  foldl (sweep_one now) rows l !! Followed.bangumi_name f
  = Some (if stale now f then Followed.set_status Followed.STATUS_FOLLOWED f else f).
Proof.
  revert rows. induction l as [|x l IH]; intros rows Hnd Hf Hrow.
  - by apply elem_of_nil in Hf.
  - rewrite fmap_cons in Hnd. apply NoDup_cons in Hnd as [Hx Hnd]. simpl.
    destruct (decide (Followed.bangumi_name x = Followed.bangumi_name f)) as [Heq|Hne].
    + assert (x = f) as ->.
      { apply elem_of_cons in Hf as [->|Hf]; [done|].
        exfalso. apply Hx. rewrite Heq. apply list_elem_of_fmap. by exists f. }
      rewrite sweep_fold_other by done.
      unfold sweep_one, Followed.save.
      destruct (stale now f); [by rewrite lookup_insert_eq|done].
    + apply elem_of_cons in Hf as [->|Hf]; [done|].
      apply IH; [done|done|]. by rewrite sweep_one_other.
Qed.

Lemma get_all_followed_elem (rows : gmap string Followed.t) (f : Followed.t) :
  f ∈ Followed.get_all_followed rows
  ↔ Followed.status f ≠ Followed.STATUS_DELETED ∧ ∃ k, rows !! k = Some f.
Proof.
  unfold Followed.get_all_followed. rewrite list_elem_of_filter, list_elem_of_fmap.
  split.
  - intros [Hs ([k f'] & -> & Hin)]. split; [done|].
    exists k. by apply elem_of_map_to_list.
  - intros [Hs [k Hk]]. split; [done|].
    exists (k, f). split; [done|]. by apply elem_of_map_to_list.
Qed.

Lemma get_all_followed_names (rows : gmap string Followed.t) :
  store_ok rows → NoDup (Followed.bangumi_name <$> Followed.get_all_followed rows).
Proof.
  intros Hok. unfold Followed.get_all_followed.
  apply (sublist_NoDup _ (Followed.bangumi_name <$> (snd <$> map_to_list rows)));
    [|apply fmap_sublist, sublist_filter].
  assert (Followed.bangumi_name <$> (snd <$> map_to_list rows) = (map_to_list rows).*1) as ->.
  { rewrite <- list_fmap_compose. apply list_fmap_ext.
    intros i [k f] Hi. simpl. apply (Hok k f).
    apply elem_of_map_to_list. eapply list_elem_of_lookup_2, Hi. }
  apply NoDup_fst_map_to_list.
Qed.

(** What the sweep does to each row of the table. *)
Lemma sweep_lookup (now : Z) (rows : gmap string Followed.t) (k : string) :
  store_ok rows →
  sweep now rows !! k
  = (fun f => if bool_decide (Followed.status f ≠ Followed.STATUS_DELETED) && stale now f
              then Followed.set_status Followed.STATUS_FOLLOWED f else f) <$> rows !! k.
Proof.
  intros Hok. unfold sweep. destruct (rows !! k) as [f|] eqn:Hrow; simpl.
  - pose proof (Hok k f Hrow) as Hname. simpl in Hname. subst k.
    destruct (decide (Followed.status f ≠ Followed.STATUS_DELETED)) as [Hs|Hs].
    + rewrite bool_decide_eq_true_2 by done. simpl.
      apply sweep_fold_listed; [by apply get_all_followed_names| |done].
      apply get_all_followed_elem. eauto.
    + rewrite bool_decide_eq_false_2 by done. simpl.
      rewrite sweep_fold_other; [done|].
      intros (g & Hg & Hin)%list_elem_of_fmap.
      apply get_all_followed_elem in Hin as [Hgs [k' Hk']].
      pose proof (Hok k' g Hk') as Hname. simpl in Hname. subst k'.
      rewrite <- Hg in Hk'. assert (g = f) as -> by congruence. done.
  - rewrite sweep_fold_other; [done|].
    intros (g & Hg & Hin)%list_elem_of_fmap.
    apply get_all_followed_elem in Hin as [Hgs [k' Hk']].
    pose proof (Hok k' g Hk') as Hname. simpl in Hname. subst k'.
    rewrite <- Hg in Hk'. congruence.
Qed.

(** [update] begins with the sweep: the loop runs on the swept table. *)
Lemma update_sweeps_first (E : services) (names : list string) (download not_ignore : bool)
    (w : world) :
  ∃ logged,
    update E names download not_ignore w
    = for_each (select_followed names (sweep (time_time E (clock w)) (followed w)))
        (update_one E download (negb not_ignore))
        (World (bangumi w) (sweep (time_time E (clock w)) (followed w))
           (downloads w ++ logged) (S (clock w))).
Proof.
  unfold update, bind, now_, set_followed, ret, download_episodes. simpl.
  destruct download, (failed_downloads E) as [|d failed], (script_download_queue E) as [|x queue];
    simpl; eexists; try (rewrite <- app_assoc; simpl); try reflexivity;
    by rewrite app_nil_r.
Qed.

(** C5, as amended: in the sweep that opens every update cycle, every
    subscription in status UPDATED whose updated_time is set (not zero)
    and more than 24 hours before the current time is reverted to
    FOLLOWED, and every one whose updated_time is 1 hour in the past is
    left as it is, in status UPDATED. *)
Theorem update_staleness_sweep (rows : gmap string Followed.t) (now : Z) :
  store_ok rows →
  (∀ name f, rows !! name = Some f →
     Followed.status f = Followed.STATUS_UPDATED →
     Followed.updated_time f ≠ 0 →
     Followed.updated_time f + 60 * 60 * 24 < now →
     sweep now rows !! name = Some (Followed.set_status Followed.STATUS_FOLLOWED f))
  ∧ (∀ name f, rows !! name = Some f →
       Followed.status f = Followed.STATUS_UPDATED →
       Followed.updated_time f = now - 60 * 60 →
       sweep now rows !! name = Some f).
Proof.
  intros Hok. split; intros name f Hrow Hs.
  - intros Hset Hold. rewrite sweep_lookup, Hrow by done. simpl.
    rewrite bool_decide_eq_true_2 by (rewrite Hs; done). unfold stale. simpl.
    destruct (Z.eqb_spec (Followed.updated_time f) 0); [done|].
    destruct (Z.ltb_spec (Followed.updated_time f + 60 * 60 * 24) now); [done|lia].
  - intros Hrecent. rewrite sweep_lookup, Hrow by done. simpl.
    unfold stale.
    destruct (Z.ltb_spec (Followed.updated_time f + 60 * 60 * 24) now); [lia|].
    by rewrite !andb_false_r.
Qed.

Lemma update_staleness_sweep_witness :
  store_ok (followed (world_of [sub "Show A" 5 2 1910000; sub "Show B" 7 2 1996400]))
  ∧ sweep 2000000 (followed (world_of [sub "Show A" 5 2 1910000; sub "Show B" 7 2 1996400]))
      !! "Show A" = Some (sub "Show A" 5 1 1910000)
  ∧ sweep 2000000 (followed (world_of [sub "Show A" 5 2 1910000; sub "Show B" 7 2 1996400]))
      !! "Show B" = Some (sub "Show B" 7 2 1996400).
Proof.
  assert (store_ok (followed (world_of [sub "Show A" 5 2 1910000; sub "Show B" 7 2 1996400])))
    as Hok by (apply (bool_decide_unpack (store_ok _)); vm_compute; exact I).
  destruct (update_staleness_sweep _ 2000000 Hok) as [Hold Hrecent].
  split; [exact Hok|]. split.
  - apply (Hold "Show A" (sub "Show A" 5 2 1910000)); vm_compute; congruence.
  - apply (Hrecent "Show B" (sub "Show B" 7 2 1996400)); vm_compute; congruence.
Defined.

(** C5 as stated fails: a subscription in status UPDATED whose
    updated_time is 0, far more than 24 hours before the current time,
    is not reverted, because the sweep first tests that updated_time is
    set. *)
Lemma update_sweep_keeps_unset_updated_time :
  followed (world_of [sub "Show A" 5 2 0]) !! "Show A" = Some (sub "Show A" 5 2 0)
  ∧ Followed.status (sub "Show A" 5 2 0) = Followed.STATUS_UPDATED
  ∧ Followed.updated_time (sub "Show A" 5 2 0) + 60 * 60 * 24 < 2000000
  ∧ sweep 2000000 (followed (world_of [sub "Show A" 5 2 0])) !! "Show A"
    = Some (sub "Show A" 5 2 0).
Proof. repeat split. Qed.

(** Such a row arises from [status_] on a fresh subscription, which sets
    the status and no timestamp. *)
Lemma status_updated_without_time :
  status_ "Show A" 2 (world_of [Followed.new 1 "Show A" 5])
  = (Returned (<["message" := "Followed<Show A> has been marked as status 2"]>
                 (<["status" := "success"]> ∅)),
     world_of [sub "Show A" 5 2 0]).
Proof. vm_compute. reflexivity. Qed.

(** ** The refresh loop *)

Lemma for_each_app {A : Type} (l1 l2 : list A) (body : A → M unit) (w : world) :
  for_each (l1 ++ l2) body w = (_ <~ for_each l1 body ;; for_each l2 body) w.
Proof.
  revert w. induction l1 as [|x l1 IH]; intros w; [done|].
  simpl. unfold bind in *. destruct (body x w) as [[[]|e] w1]; [apply IH|done].
Qed.

(** The loop body never writes the catalog. *)
Lemma update_one_bangumi (E : services) (download ignore : bool) (subscribe : Followed.t)
    (w : world) :
  bangumi (update_one E download ignore subscribe w).2 = bangumi w.
Proof.
  unfold update_one.
  destruct (Bangumi.get _ _) as [bangumi_obj|]; [|done].
  destruct (Followed.get _ _) as [followed_obj|]; [|done].
  destruct (get_maximum_episode _ _ _ _) as [obs|[]]; try done.
  unfold bind, reconcile.
  destruct (_ <? _); unfold bind, now_, save, ret, download_episodes;
    simpl; by destruct download.
Qed.

Lemma for_each_update_bangumi (E : services) (download ignore : bool)
    (l : list Followed.t) (w : world) :
  bangumi (for_each l (update_one E download ignore) w).2 = bangumi w.
Proof.
  revert w. induction l as [|x l IH]; intros w; [done|].
  simpl. unfold bind.
  pose proof (update_one_bangumi E download ignore x w) as Hx.
  destruct (update_one E download ignore x w) as [[[]|e] w1]; simpl in *; [|done].
  by rewrite IH.
Qed.

(** A series whose fetch raises [ConnectionError] is passed over. *)
Lemma update_one_unreachable (E : services) (download ignore : bool)
    (subscribe : Followed.t) (w : world) (bangumi_obj : Bangumi.t) (msg : string) :
  Bangumi.get (fun b => String.eqb (Bangumi.name b) (Followed.bangumi_name subscribe))
    (bangumi w) = Some bangumi_obj →
  get_maximum_episode E bangumi_obj (Some ignore) (max_path E)
  = Raised (ConnectionError msg) →
  update_one E download ignore subscribe w = (Returned tt, w).
Proof.
  intros Hb Hfetch. unfold update_one. rewrite Hb.
  destruct (Followed.get _ _); [|done]. by rewrite Hfetch.
Qed.

(** C9, as amended: in the loop of a refresh cycle, a connection error
    (requests' ConnectionError) raised by the episode fetch of one series
    is caught for that series: its turn returns normally and writes
    nothing, and the loop goes on to reconcile the series listed next,
    whose row is advanced to the highest observed number and whose queue
    is handed over when downloads are on, before the rest of the list is
    visited from that world.  The connection error of one fetch does not
    abort the batch. *)
Theorem update_skips_unreachable (E : services) (download ignore : bool)
    (before rest : list Followed.t) (subscribe next followed_obj : Followed.t)
    (w w1 : world) (bangumi_obj next_bangumi : Bangumi.t) (msg : string)
    (obs : list Episode.t) :
  for_each before (update_one E download ignore) w = (Returned tt, w1) →
  Bangumi.get (fun b => String.eqb (Bangumi.name b) (Followed.bangumi_name subscribe))
    (bangumi w1) = Some bangumi_obj →
  get_maximum_episode E bangumi_obj (Some ignore) (max_path E)
  = Raised (ConnectionError msg) →
  Bangumi.get (fun b => String.eqb (Bangumi.name b) (Followed.bangumi_name next))
    (bangumi w1) = Some next_bangumi →
  Followed.get (Followed.bangumi_name next) (followed w1) = Some followed_obj →
  get_maximum_episode E next_bangumi (Some ignore) (max_path E) = Returned obs →
  Followed.episode next < highest obs →
  update_one E download ignore subscribe w1 = (Returned tt, w1)
  ∧ for_each (before ++ subscribe :: next :: rest) (update_one E download ignore) w
    = for_each rest (update_one E download ignore)
        (World (bangumi w1)
           (Followed.save
              (Followed.set_updated_time (time_time E (clock w1))
                 (Followed.set_status Followed.STATUS_UPDATED
                    (Followed.set_episode (highest obs) followed_obj)))
              (followed w1))
           (downloads w1
            ++ (if download
                then [Download.of_queue
                        (omap (fun n => last_instance n obs)
                           (range (Followed.episode next + 1) (highest obs + 1)))]
                else []))
           (S (clock w1))).
Proof.
  intros Hbefore Hb Hfetch Hnb Hrow Hnfetch Hlt.
  pose proof (update_one_unreachable E download ignore subscribe w1 bangumi_obj msg
                Hb Hfetch) as Hskip.
  split; [exact Hskip|].
  rewrite for_each_app. unfold bind at 1. rewrite Hbefore.
  simpl. unfold bind at 1. rewrite Hskip. unfold bind at 1.
  assert (update_one E download ignore next w1
          = (Returned tt,
             World (bangumi w1)
               (Followed.save
                  (Followed.set_updated_time (time_time E (clock w1))
                     (Followed.set_status Followed.STATUS_UPDATED
                        (Followed.set_episode (highest obs) followed_obj)))
                  (followed w1))
               (downloads w1
                ++ (if download
                    then [Download.of_queue
                            (omap (fun n => last_instance n obs)
                               (range (Followed.episode next + 1) (highest obs + 1)))]
                    else []))
               (S (clock w1)))) as ->.
  { unfold update_one. rewrite Hnb, Hrow, Hnfetch. unfold bind.
    rewrite reconcile_advance by done.
    destruct download; simpl; [done|]. by rewrite app_nil_r. }
  done.
Qed.

Lemma update_skips_unreachable_witness :
  get_maximum_episode E0 show_b (Some true) (max_path E0)
  = Raised (ConnectionError "unreachable")
  ∧ Followed.episode (sub "Show A" 3 1 0) < highest observed_a
  ∧ update_one E0 true true (sub "Show B" 1 1 0)
      (world_of [sub "Show A" 3 1 0; sub "Show B" 1 1 0])
    = (Returned tt, world_of [sub "Show A" 3 1 0; sub "Show B" 1 1 0])
  ∧ for_each ([] ++ sub "Show B" 1 1 0 :: sub "Show A" 3 1 0 :: []) (update_one E0 true true)
      (world_of [sub "Show A" 3 1 0; sub "Show B" 1 1 0])
    = (Returned tt,
       World [show_a; show_b]
         (<["Show A" := sub "Show A" 6 2 2000000]> {["Show B" := sub "Show B" 1 1 0]})
         [Download.of_queue [ep 4 "alt"; ep 6 "main"]] 1).
Proof.
  assert (Followed.episode (sub "Show A" 3 1 0) < highest observed_a) as Hlt by reflexivity.
  split; [reflexivity|]. split; [exact Hlt|].
  exact (update_skips_unreachable E0 true true [] [] (sub "Show B" 1 1 0)
           (sub "Show A" 3 1 0) (sub "Show A" 3 1 0)
           (world_of [sub "Show A" 3 1 0; sub "Show B" 1 1 0])
           (world_of [sub "Show A" 3 1 0; sub "Show B" 1 1 0])
           show_b show_a "unreachable" observed_a
           eq_refl eq_refl eq_refl eq_refl eq_refl eq_refl Hlt).
Defined.

(** C9 as stated fails: a failure of the fetch that is not of the class
    ConnectionError, here a read timeout on Show B, is not caught: the
    cycle raises it at Show B, and Show A, listed next with new episodes
    to find, is never reconciled. *)
Lemma update_aborts_on_other_fetch_failure :
  get_maximum_episode E_timeout show_b (Some true) (max_path E_timeout)
  = Raised (Exception "ReadTimeout")
  ∧ get_maximum_episode E_timeout show_a (Some true) (max_path E_timeout)
    = Returned observed_a
  ∧ Followed.episode (sub "Show A" 3 1 0) < highest observed_a
  ∧ update E_timeout ["Show B"; "Show A"] true false
      (world_of [sub "Show A" 3 1 0; sub "Show B" 1 1 0])
    = (Raised (Exception "ReadTimeout"),
       World [show_a; show_b]
         (<["Show A" := sub "Show A" 3 1 0]> {["Show B" := sub "Show B" 1 1 0]}) [] 1).
Proof. split_and!; vm_compute; reflexivity. Qed.

(** A whole cycle on that world: Show B is unreachable, Show A is
    reconciled and its queue handed to the downloader. *)
Example update_cycle :
  update E0 ["Show B"; "Show A"] true false
    (world_of [sub "Show A" 3 1 0; sub "Show B" 1 1 0])
  = (Returned tt,
     World [show_a; show_b]
       (<["Show A" := sub "Show A" 6 2 2000001]> {["Show B" := sub "Show B" 1 1 0]})
       [Download.of_queue [ep 4 "alt"; ep 6 "main"]] 2).
Proof. vm_compute. reflexivity. Qed.

(** An exception of another class is not caught: it ends the cycle. *)
Lemma update_one_propagates (E : services) (download ignore : bool)
    (subscribe followed_obj : Followed.t) (w : world) (bangumi_obj : Bangumi.t)
    (msg : string) :
  Bangumi.get (fun b => String.eqb (Bangumi.name b) (Followed.bangumi_name subscribe))
    (bangumi w) = Some bangumi_obj →
  Followed.get (Followed.bangumi_name subscribe) (followed w) = Some followed_obj →
  get_maximum_episode E bangumi_obj (Some ignore) (max_path E) = Raised (Exception msg) →
  update_one E download ignore subscribe w = (Raised (Exception msg), w).
Proof.
  intros Hb Hf Hfetch. unfold update_one. by rewrite Hb, Hf, Hfetch.
Qed.

(** ** Search *)

Lemma insert_by_sorted {A : Type} (key : A → Z) (x : A) (l : list A) :
  StronglySorted Z.le (key <$> l) → StronglySorted Z.le (key <$> insert_by key x l).
Proof.
  induction l as [|y l IH]; intros Hs; simpl.
  - repeat constructor.
  - rewrite fmap_cons in Hs. apply StronglySorted_inv in Hs as [Hl Hy].
    destruct (Z.leb_spec (key x) (key y)) as [Hle|Hgt].
    + rewrite !fmap_cons. constructor.
      * constructor; done.
      * constructor; [done|]. eapply Forall_impl; [exact Hy|]. simpl. lia.
    + rewrite fmap_cons. constructor; [by apply IH|].
      apply Forall_forall. intros k Hk.
      apply list_elem_of_fmap in Hk as (z & -> & Hz).
      assert (z = x ∨ z ∈ l) as [->|Hzl].
      { clear -Hz. induction l as [|y' l IHl]; simpl in Hz.
        - apply list_elem_of_singleton in Hz. by left.
        - destruct (key x <=? key y').
          + apply elem_of_cons in Hz as [->|Hz]; [by left|by right].
          + apply elem_of_cons in Hz as [->|Hz].
            * right. apply elem_of_cons. by left.
            * destruct (IHl Hz) as [->|?]; [by left|].
              right. apply elem_of_cons. by right. }
      * lia.
      * rewrite Forall_forall in Hy. apply Hy. apply list_elem_of_fmap. by exists z.
Qed.

Lemma sort_sorted {A : Type} (key : A → Z) (l : list A) :
  StronglySorted Z.le (key <$> sort key l).
Proof.
  unfold sort. induction l as [|x l IH]; simpl; [constructor|].
  by apply insert_by_sorted.
Qed.

Lemma insert_by_perm {A : Type} (key : A → Z) (x : A) (l : list A) :
  insert_by key x l ≡ₚ x :: l.
Proof.
  induction l as [|y l IH]; simpl; [done|].
  destruct (key x <=? key y); [done|]. rewrite IH. apply Permutation_swap.
Qed.

(** Sorting keeps the elements. *)
Lemma sort_perm {A : Type} (key : A → Z) (l : list A) : sort key l ≡ₚ l.
Proof.
  unfold sort. induction l as [|x l IH]; simpl; [done|].
  by rewrite insert_by_perm, IH.
Qed.

(** C10: whenever [search] returns a success result, its data list is in
    non-decreasing order of episode number. *)
Theorem search_success_sorted (E : services) (keyword : string) (count : Z)
    (regex : option string) (dupe : bool) (min_episode max_episode : option Z)
    (tag : bool) (subtitle : option string) (result : SearchResult) :
  search E keyword count regex dupe min_episode max_episode tag subtitle = Returned result →
  res_status result = "success" →
  StronglySorted Z.le (Episode.episode <$> res_data result).
Proof.
  unfold search.
  destruct (search_data E keyword count regex dupe min_episode max_episode tag subtitle)
    as [data|e] eqn:Hdata.
  - intros [= <-] _. simpl. unfold search_data in Hdata.
    destruct (if tag then _ else _) as [found|]; [|done].
    destruct (episode_filter_regex E found regex) as [kept|]; [|done].
    injection Hdata as <-. apply sort_sorted.
  - destruct (debug E); [done|]. intros [= <-]. simpl. done.
Qed.

Lemma search_success_sorted_witness :
  search E0 "Show" 3 None true (Some 2) None false None
  = Returned (Result "success" "" (Options "Show" 3 None true (Some 2) None)
                [ep 2 "b"; ep 3 "c"])
  ∧ res_status (Result "success" "" (Options "Show" 3 None true (Some 2) None)
                  [ep 2 "b"; ep 3 "c"]) = "success"
  ∧ StronglySorted Z.le
      (Episode.episode <$> res_data (Result "success" "" (Options "Show" 3 None true (Some 2) None)
                                       [ep 2 "b"; ep 3 "c"])).
Proof.
  assert (search E0 "Show" 3 None true (Some 2) None false None
          = Returned (Result "success" "" (Options "Show" 3 None true (Some 2) None)
                        [ep 2 "b"; ep 3 "c"])) as H by (vm_compute; reflexivity).
  split; [exact H|]. split; [reflexivity|].
  exact (search_success_sorted E0 _ _ _ _ _ _ _ _ _ H eq_refl).
Defined.

(** ** Subscription lifecycle *)

Lemma refresh_catalog_followed (E : services) (w w1 : world) (o : outcome unit) :
  refresh_catalog E w = (o, w1) → followed w1 = followed w.
Proof.
  unfold refresh_catalog. destruct (get_updating_bangumi E (bangumi w)).
  - by intros [= _ <-].
  - destruct (website_fetch E (bangumi w)); by intros [= _ <-].
Qed.

(** C4, as amended: for every series whose subscription is in status
    FOLLOWED, [add] changes nothing in the subscription table (status,
    watermark and filters stay as they are) and returns the warning
    result "already followed". *)
Theorem add_followed_is_noop (E : services) (name : string) (episode : option Z)
    (w w1 : world) (bangumi_obj : Bangumi.t) (followed_obj : Followed.t) :
  refresh_catalog E w = (Returned tt, w1) →
  Bangumi.get (fun b => name_contains E (Bangumi.name b) name) (bangumi w1)
  = Some bangumi_obj →
  followed w !! Bangumi.name bangumi_obj = Some followed_obj →
  Followed.status followed_obj = Followed.STATUS_FOLLOWED →
  add E name episode w
  = (Returned (<["message" := Bangumi.name bangumi_obj +:+ " already followed"]>
                 (<["status" := "warning"]> ∅)), w1)
  ∧ followed w1 = followed w.
Proof.
  intros Hcat Hb Hrow Hs.
  pose proof (refresh_catalog_followed _ _ _ _ Hcat) as Hsame.
  split; [|done]. unfold add, bind. rewrite Hcat, Hb, Hsame, Hrow, Hs. done.
Qed.

Lemma add_followed_is_noop_witness :
  refresh_catalog E0 (world_of [sub "Show A" 3 1 0])
  = (Returned tt, world_of [sub "Show A" 3 1 0])
  ∧ add E0 "Show" (Some 9) (world_of [sub "Show A" 3 1 0])
    = (Returned (<["message" := "Show A already followed"]> (<["status" := "warning"]> ∅)),
       world_of [sub "Show A" 3 1 0])
  ∧ followed (world_of [sub "Show A" 3 1 0]) = followed (world_of [sub "Show A" 3 1 0]).
Proof.
  split; [reflexivity|].
  apply (add_followed_is_noop E0 "Show" (Some 9) _ _ show_a (sub "Show A" 3 1 0));
    reflexivity.
Defined.

(** C4 as stated fails: on a subscription in status UPDATED, [add]
    returns a success result, sets the status to FOLLOWED and rewrites the
    watermark, as it does for a deleted subscription. *)
Lemma add_updated_subscription_is_rewritten :
  followed (world_of [sub "Show A" 3 2 1000]) !! "Show A" = Some (sub "Show A" 3 2 1000)
  ∧ Followed.status (sub "Show A" 3 2 1000) = Followed.STATUS_UPDATED
  ∧ add E0 "Show A" None (world_of [sub "Show A" 3 2 1000])
    = (Returned (<["message" := "add Show A to subscribing bangumi list"]>
                   (<["status" := "success"]> ∅)),
       world_of [sub "Show A" 6 1 1000]).
Proof. split; [reflexivity|]. split; [reflexivity|]. vm_compute. reflexivity. Qed.

(** When the fetch of the maximum episode fails, the exception leaves
    [add] after the row has been written: a new row at watermark 0, or
    an old row switched to FOLLOWED. *)
Lemma add_fetch_failure (E : services) (name : string) (w w1 : world)
    (bangumi_obj : Bangumi.t) (e : exn) :
  refresh_catalog E w = (Returned tt, w1) →
  Bangumi.get (fun b => name_contains E (Bangumi.name b) name) (bangumi w1)
  = Some bangumi_obj →
  followed w !! Bangumi.name bangumi_obj = None →
  get_maximum_episode E bangumi_obj None (max_path E) = Raised e →
  add E name None w
  = (Raised e,
     set_followed
       (<[Bangumi.name bangumi_obj :=
            Followed.new Followed.STATUS_FOLLOWED (Bangumi.name bangumi_obj) 0]> (followed w))
       w1).
Proof.
  intros Hcat Hb Hrow Hfetch.
  pose proof (refresh_catalog_followed _ _ _ _ Hcat) as Hsame.
  unfold add, bind. rewrite Hcat, Hb, Hsame, Hrow.
  unfold add_episode, bind. simpl. by rewrite Hfetch.
Qed.

(** C6 at its failing input: [add] of a series that resolves in the
    catalog and has no subscription, while the episode source is down,
    raises the connection error and leaves behind a subscription at
    watermark 0 that was not there before; on a deleted subscription it
    leaves the status switched to FOLLOWED. *)
Theorem add_is_not_atomic :
  add E_down "Show A" None (world_of [])
  = (Raised (ConnectionError "unreachable"),
     world_of [Followed.new Followed.STATUS_FOLLOWED "Show A" 0])
  ∧ followed (world_of []) !! "Show A" = None
  ∧ add E_down "Show A" None (world_of [sub "Show A" 5 0 0])
    = (Raised (ConnectionError "unreachable"), world_of [sub "Show A" 5 1 0]).
Proof. split; [|split]; vm_compute; reflexivity. Qed.

(** The sibling operations write once, after every step that can fail;
    [mark] on a name that is neither followed nor a script writes nothing. *)
Lemma mark_missing_writes_nothing (E : services) (name : string) (episode : Z) (w : world) :
  followed w !! name = None → get_model E name = false →
  (mark E name episode w).2 = w.
Proof. intros Hrow Hscript. unfold mark, Followed.get. by rewrite Hrow, Hscript. Qed.

Lemma status_missing_raises (name : string) (status : Z) (w : world) :
  status = Followed.STATUS_FOLLOWED ∨ status = Followed.STATUS_UPDATED →
  followed w !! name = None →
  status_ name status w = (Raised NotFoundError, w).
Proof.
  intros [->| ->] Hrow; unfold status_, Followed.get; simpl; by rewrite Hrow.
Qed.

(** C7 at its failing input: [status_] on a name without a subscription
    row raises [NotFoundError] instead of returning the error result that
    its own [if not followed_obj] branch prepares. *)
Theorem status_missing_name_raises :
  followed (world_of [sub "Show A" 3 1 0]) !! "Show B" = None
  ∧ status_ "Show B" Followed.STATUS_FOLLOWED (world_of [sub "Show A" 3 1 0])
    = (Raised NotFoundError, world_of [sub "Show A" 3 1 0]).
Proof. split; vm_compute; reflexivity. Qed.

(** C8, as amended: for a single non-empty name, [delete] on a series
    that has a subscription row, active or already deleted, sets the
    status to DELETED, keeps the row, and returns the warning "has been
    deleted"; doing it again returns the same and changes nothing; on a
    series without a row it returns the error "does not exist" and
    changes nothing. *)
Theorem delete_single_name (E : services) (name : string) (batch : bool) (w : world) :
  name ≠ "" →
  store_ok (followed w) →
  (∀ f, followed w !! name = Some f →
     let w' := set_followed
                 (<[name := Followed.set_status Followed.STATUS_DELETED f]> (followed w)) w in
     delete E name false batch w
     = (Returned (<["message" := "Bangumi " +:+ name +:+ " has been deleted"]>
                    (<["status" := "warning"]> ∅)), w')
     ∧ delete E name false batch w'
       = (Returned (<["message" := "Bangumi " +:+ name +:+ " has been deleted"]>
                      (<["status" := "warning"]> ∅)), w'))
  ∧ (followed w !! name = None →
     delete E name false batch w
     = (Returned (<["message" := "Bangumi " +:+ name +:+ " does not exist"]>
                    (<["status" := "error"]> ∅)), w)).
Proof.
  intros Hname Hok.
  assert (String.eqb name "" = false) as Hne by by apply String.eqb_neq.
  split.
  - intros f Hrow. pose proof (Hok name f Hrow) as Hkey. simpl in Hkey.
    unfold delete, Followed.get, Followed.save, set_followed. rewrite Hne. simpl.
    rewrite Hrow. simpl. rewrite Hkey, lookup_insert_eq. simpl. rewrite Hkey.
    by rewrite insert_insert_eq.
  - intros Hrow. unfold delete, Followed.get. rewrite Hne. simpl. by rewrite Hrow.
Qed.

Lemma delete_single_name_witness :
  "Show A" ≠ ""
  ∧ store_ok (followed (world_of [sub "Show A" 5 2 1000]))
  ∧ delete E0 "Show A" false false (world_of [sub "Show A" 5 2 1000])
    = (Returned (<["message" := "Bangumi Show A has been deleted"]>
                   (<["status" := "warning"]> ∅)),
       world_of [sub "Show A" 5 0 1000])
  ∧ delete E0 "Show B" false false (world_of [sub "Show A" 5 2 1000])
    = (Returned (<["message" := "Bangumi Show B does not exist"]>
                   (<["status" := "error"]> ∅)),
       world_of [sub "Show A" 5 2 1000]).
Proof.
  assert ("Show A" ≠ "") as Ha by discriminate.
  assert ("Show B" ≠ "") as Hb by discriminate.
  assert (store_ok (followed (world_of [sub "Show A" 5 2 1000]))) as Hok
    by (apply (bool_decide_unpack (store_ok _)); vm_compute; exact I).
  split; [exact Ha|]. split; [exact Hok|]. split.
  - exact (proj1 (proj1 (delete_single_name E0 "Show A" false _ Ha Hok)
                    (sub "Show A" 5 2 1000) eq_refl)).
  - exact (proj2 (delete_single_name E0 "Show B" false _ Hb Hok) eq_refl).
Defined.

(** C8 as stated fails: deleting a series that is already deleted is
    reported with the warning "has been deleted", not as not found. *)
Lemma delete_already_deleted_is_warning :
  followed (world_of [sub "Show A" 5 0 1000]) !! "Show A" = Some (sub "Show A" 5 0 1000)
  ∧ Followed.status (sub "Show A" 5 0 1000) = Followed.STATUS_DELETED
  ∧ delete E0 "Show A" false false (world_of [sub "Show A" 5 0 1000])
    = (Returned (<["message" := "Bangumi Show A has been deleted"]>
                   (<["status" := "warning"]> ∅)),
       world_of [sub "Show A" 5 0 1000]).
Proof. split; [reflexivity|]. split; [reflexivity|]. vm_compute. reflexivity. Qed.

(** ** The table invariant *)

Lemma store_ok_save (f : Followed.t) (rows : gmap string Followed.t) :
  store_ok rows → store_ok (Followed.save f rows).
Proof. intros Hok. by apply map_Forall_insert_2. Qed.

Lemma world_of_ok (rows : list Followed.t) : store_ok (followed (world_of rows)).
Proof.
  simpl. induction rows as [|f rows IH]; simpl.
  - apply map_Forall_empty.
  - by apply store_ok_save.
Qed.

Lemma sweep_ok (now : Z) (rows : gmap string Followed.t) :
  store_ok rows → store_ok (sweep now rows).
Proof.
  unfold sweep. generalize (Followed.get_all_followed rows) as l. intros l. revert rows.
  induction l as [|x l IH]; intros rows Hok; [done|]. simpl. apply IH.
  unfold sweep_one. destruct (stale now x); [by apply store_ok_save|done].
Qed.

Lemma reconcile_ok (E : services) (subscribe followed_obj : Followed.t)
    (obs : list Episode.t) (w : world) :
  store_ok (followed w) → store_ok (followed (reconcile E subscribe followed_obj obs w).2).
Proof.
  intros Hok. unfold reconcile. destruct (_ <? _); [|done].
  unfold bind, now_, save, ret. simpl. by apply store_ok_save.
Qed.

(** One turn of the refresh loop keeps every row under its own name. *)
Lemma update_one_ok (E : services) (download ignore : bool) (subscribe : Followed.t)
    (w : world) :
  store_ok (followed w) → store_ok (followed (update_one E download ignore subscribe w).2).
Proof.
  intros Hok. unfold update_one.
  destruct (Bangumi.get _ _) as [bangumi_obj|]; [|done].
  destruct (Followed.get _ _) as [followed_obj|]; [|done].
  destruct (get_maximum_episode _ _ _ _) as [obs|[]]; try done.
  unfold bind.
  pose proof (reconcile_ok E subscribe followed_obj obs w Hok) as Hrec.
  destruct (reconcile E subscribe followed_obj obs w) as [[queue|e] w1]; [|done].
  by destruct download.
Qed.

(** ** More on the lifecycle operations *)

Lemma lookup_save (f : Followed.t) (rows : gmap string Followed.t) (k : string) :
  Followed.save f rows !! k
  = if decide (Followed.bangumi_name f = k) then Some f else rows !! k.
Proof. unfold Followed.save. apply lookup_insert. Qed.

Lemma add_episode_writes (E : services) (bangumi_obj : Bangumi.t) (row : Followed.t)
    (episode : option Z) (n : Z) (w : world) :
  add_watermark E bangumi_obj episode n →
  add_episode E bangumi_obj row episode w
  = (Returned (<["message" := "add " +:+ Bangumi.name bangumi_obj
                               +:+ " to subscribing bangumi list"]>
                 (<["status" := "success"]> ∅)),
     set_followed (Followed.save (Followed.set_episode n row) (followed w)) w).
Proof.
  unfold add_watermark, add_episode, bind, save, ret.
  destruct episode as [m|].
  - by intros ->.
  - intros (episodes & -> & ->). done.
Qed.

(** [add] once the series is resolved, by the state of its row. *)
Lemma add_resolved (E : services) (name : string) (episode : option Z) (n : Z)
    (w w1 : world) (bangumi_obj : Bangumi.t) :
  refresh_catalog E w = (Returned tt, w1) →
  Bangumi.get (fun b => name_contains E (Bangumi.name b) name) (bangumi w1)
  = Some bangumi_obj →
  add_watermark E bangumi_obj episode n →
  add E name episode w
  = match followed w !! Bangumi.name bangumi_obj with
    | None =>
        (Returned (<["message" := "add " +:+ Bangumi.name bangumi_obj
                                   +:+ " to subscribing bangumi list"]>
                     (<["status" := "success"]> ∅)),
         set_followed
           (<[Bangumi.name bangumi_obj :=
                Followed.new Followed.STATUS_FOLLOWED (Bangumi.name bangumi_obj) n]>
              (followed w)) w1)
    | Some row =>
        if Followed.status row =? Followed.STATUS_FOLLOWED then
          (Returned (<["message" := Bangumi.name bangumi_obj +:+ " already followed"]>
                       (<["status" := "warning"]> ∅)), w1)
        else
          (Returned (<["message" := "add " +:+ Bangumi.name bangumi_obj
                                     +:+ " to subscribing bangumi list"]>
                       (<["status" := "success"]> ∅)),
           set_followed
             (Followed.save
                (Followed.set_episode n (Followed.set_status Followed.STATUS_FOLLOWED row))
                (Followed.save (Followed.set_status Followed.STATUS_FOLLOWED row)
                   (followed w))) w1)
    end.
Proof.
  intros Hcat Hb Hn.
  pose proof (refresh_catalog_followed _ _ _ _ Hcat) as Hsame.
  unfold add, bind. rewrite Hcat, Hb, Hsame.
  destruct (followed w !! Bangumi.name bangumi_obj) as [row|].
  - destruct (Followed.status row =? Followed.STATUS_FOLLOWED); [done|].
    rewrite (add_episode_writes E _ _ _ n) by done.
    unfold set_followed. simpl. done.
  - rewrite (add_episode_writes E _ _ _ n) by done.
    unfold set_followed, Followed.save, Followed.set_episode, Followed.new. simpl.
    by rewrite insert_insert_eq.
Qed.

(** X1: [add] on a name that matches no row of the catalog returns the
    error result "not found" and leaves the subscription table as it
    was. *)
Theorem add_unknown_series (E : services) (name : string) (episode : option Z)
    (w w1 : world) :
  refresh_catalog E w = (Returned tt, w1) →
  Bangumi.get (fun b => name_contains E (Bangumi.name b) name) (bangumi w1) = None →
  add E name episode w
  = (Returned (<["message" := name +:+ " not found, please check the name"]>
                 (<["status" := "error"]> ∅)), w1)
  ∧ followed w1 = followed w.
Proof.
  intros Hcat Hb. pose proof (refresh_catalog_followed _ _ _ _ Hcat) as Hsame.
  split; [|done]. unfold add, bind. by rewrite Hcat, Hb.
Qed.

Lemma add_unknown_series_witness :
  refresh_catalog E0 (world_of [sub "Show A" 3 1 0])
  = (Returned tt, world_of [sub "Show A" 3 1 0])
  ∧ add E0 "Show C" None (world_of [sub "Show A" 3 1 0])
    = (Returned (<["message" := "Show C not found, please check the name"]>
                   (<["status" := "error"]> ∅)), world_of [sub "Show A" 3 1 0])
  ∧ followed (world_of [sub "Show A" 3 1 0]) = followed (world_of [sub "Show A" 3 1 0]).
Proof.
  split; [reflexivity|].
  apply (add_unknown_series E0 "Show C" None); reflexivity.
Defined.

(** X2: [add] on a series without a subscription row creates the row in
    status FOLLOWED, with no filters, at the watermark given as argument
    or, without one, at the highest number the episode source reports
    (0 when it reports nothing), and returns a success result. *)
Theorem add_new_subscription (E : services) (name : string) (episode : option Z) (n : Z)
    (w w1 : world) (bangumi_obj : Bangumi.t) :
  refresh_catalog E w = (Returned tt, w1) →
  Bangumi.get (fun b => name_contains E (Bangumi.name b) name) (bangumi w1)
  = Some bangumi_obj →
  followed w !! Bangumi.name bangumi_obj = None →
  add_watermark E bangumi_obj episode n →
  add E name episode w
  = (Returned (<["message" := "add " +:+ Bangumi.name bangumi_obj
                               +:+ " to subscribing bangumi list"]>
                 (<["status" := "success"]> ∅)),
     set_followed
       (<[Bangumi.name bangumi_obj :=
            Followed.mk (Bangumi.name bangumi_obj) n Followed.STATUS_FOLLOWED 0 [] [] [] None]>
          (followed w)) w1).
Proof.
  intros Hcat Hb Hrow Hn. rewrite (add_resolved E name episode n w w1 bangumi_obj) by done.
  by rewrite Hrow.
Qed.

Lemma add_new_subscription_witness :
  refresh_catalog E0 (world_of []) = (Returned tt, world_of [])
  ∧ add_watermark E0 show_a None 6
  ∧ add E0 "Show A" None (world_of [])
    = (Returned (<["message" := "add Show A to subscribing bangumi list"]>
                   (<["status" := "success"]> ∅)),
       world_of [sub "Show A" 6 1 0]).
Proof.
  assert (add_watermark E0 show_a None 6) as Hn by (exists observed_a; split; reflexivity).
  split; [reflexivity|]. split; [exact Hn|].
  exact (add_new_subscription E0 "Show A" None 6 (world_of []) (world_of []) show_a
           eq_refl eq_refl eq_refl Hn).
Defined.

(** X3: [add] on a series whose row is not in status FOLLOWED (a deleted
    or an updated subscription) switches the row to FOLLOWED and rewrites
    its watermark; updated_time and the filters of the row are kept. *)
Theorem add_reactivates (E : services) (name : string) (episode : option Z) (n : Z)
    (w w1 : world) (bangumi_obj : Bangumi.t) (row : Followed.t) :
  refresh_catalog E w = (Returned tt, w1) →
  Bangumi.get (fun b => name_contains E (Bangumi.name b) name) (bangumi w1)
  = Some bangumi_obj →
  store_ok (followed w) →
  followed w !! Bangumi.name bangumi_obj = Some row →
  Followed.status row ≠ Followed.STATUS_FOLLOWED →
  add_watermark E bangumi_obj episode n →
  add E name episode w
  = (Returned (<["message" := "add " +:+ Bangumi.name bangumi_obj
                               +:+ " to subscribing bangumi list"]>
                 (<["status" := "success"]> ∅)),
     set_followed
       (<[Bangumi.name bangumi_obj :=
            Followed.mk (Bangumi.name bangumi_obj) n Followed.STATUS_FOLLOWED
              (Followed.updated_time row) (Followed.subtitle row) (Followed.include row)
              (Followed.exclude row) (Followed.regex row)]>
          (followed w)) w1).
Proof.
  intros Hcat Hb Hok Hrow Hs Hn.
  rewrite (add_resolved E name episode n w w1 bangumi_obj) by done. rewrite Hrow.
  destruct (Z.eqb_spec (Followed.status row) Followed.STATUS_FOLLOWED); [done|].
  pose proof (Hok _ _ Hrow) as Hkey. simpl in Hkey.
  unfold Followed.save, Followed.set_episode, Followed.set_status. simpl.
  by rewrite Hkey, insert_insert_eq.
Qed.

Lemma add_reactivates_witness :
  refresh_catalog E0 (world_of [deleted_a]) = (Returned tt, world_of [deleted_a])
  ∧ store_ok (followed (world_of [deleted_a]))
  ∧ add E0 "Show A" (Some 4) (world_of [deleted_a])
    = (Returned (<["message" := "add Show A to subscribing bangumi list"]>
                   (<["status" := "success"]> ∅)),
       world_of [Followed.mk "Show A" 4 1 77 ["1"] ["720"] [] (Some "x")]).
Proof.
  assert (store_ok (followed (world_of [deleted_a])))
    as Hok by (apply (bool_decide_unpack (store_ok _)); vm_compute; exact I).
  assert (Followed.status deleted_a ≠ Followed.STATUS_FOLLOWED) as Hs
    by (vm_compute; discriminate).
  split; [reflexivity|]. split; [exact Hok|].
  exact (add_reactivates E0 "Show A" (Some 4) 4 (world_of [deleted_a]) (world_of [deleted_a])
           show_a deleted_a eq_refl eq_refl Hok eq_refl Hs eq_refl).
Defined.

Lemma refresh_catalog_listed (E : services) (w : world) :
  get_updating_bangumi E (bangumi w) = true → refresh_catalog E w = (Returned tt, w).
Proof. intros H. unfold refresh_catalog. by rewrite H. Qed.

Lemma delete_found (E : services) (name : string) (batch : bool) (w : world)
    (row : Followed.t) :
  name ≠ "" → followed w !! name = Some row →
  delete E name false batch w
  = (Returned (<["message" := "Bangumi " +:+ name +:+ " has been deleted"]>
                 (<["status" := "warning"]> ∅)),
     set_followed
       (Followed.save (Followed.set_status Followed.STATUS_DELETED row) (followed w)) w).
Proof.
  intros Hname Hrow.
  assert (String.eqb name "" = false) as Hne by by apply String.eqb_neq.
  unfold delete, Followed.get. rewrite Hne. simpl. by rewrite Hrow.
Qed.

(** After [add] on a resolved series the table has a row for it. *)
Lemma add_leaves_row (E : services) (name : string) (episode : option Z) (n : Z)
    (w : world) (bangumi_obj : Bangumi.t) :
  get_updating_bangumi E (bangumi w) = true →
  Bangumi.get (fun b => name_contains E (Bangumi.name b) name) (bangumi w)
  = Some bangumi_obj →
  store_ok (followed w) →
  add_watermark E bangumi_obj episode n →
  ∃ result row,
    (add E name episode w).1 = Returned result
    ∧ bangumi (add E name episode w).2 = bangumi w
    ∧ store_ok (followed (add E name episode w).2)
    ∧ followed (add E name episode w).2 !! Bangumi.name bangumi_obj = Some row
    ∧ Followed.status row = Followed.STATUS_FOLLOWED
    ∧ (followed w !! Bangumi.name bangumi_obj = None
       ∨ (∃ old, followed w !! Bangumi.name bangumi_obj = Some old
                 ∧ Followed.status old ≠ Followed.STATUS_FOLLOWED) →
       Followed.episode row = n).
Proof.
  intros Hup Hb Hok Hn.
  rewrite (add_resolved E name episode n w w bangumi_obj)
    by (try done; by apply refresh_catalog_listed).
  destruct (followed w !! Bangumi.name bangumi_obj) as [old|] eqn:Hrow.
  - pose proof (Hok _ _ Hrow) as Hkey. simpl in Hkey.
    destruct (Z.eqb_spec (Followed.status old) Followed.STATUS_FOLLOWED) as [Hs|Hs].
    + eexists _, old. simpl. split_and!; try done.
      intros [?|(old' & [= <-] & ?)]; done.
    + eexists _, _. simpl. split_and!; try done.
      * by do 2 apply store_ok_save.
      * rewrite lookup_save. simpl. by rewrite Hkey, decide_True.
      * done.
      * done.
  - eexists _, _. simpl. split_and!; try done.
    + by apply (store_ok_save (Followed.new _ _ _)).
    + by rewrite lookup_insert_eq.
    + done.
    + done.
Qed.

(** X4: [add], then [delete] of the series by its full name, then [add]
    again restores an active subscription: the second [add] succeeds and
    leaves the row in status FOLLOWED at the watermark it was given. *)
Theorem add_delete_add (E : services) (name : string) (first second : option Z)
    (n1 n2 : Z) (batch : bool) (w : world) (bangumi_obj : Bangumi.t) :
  get_updating_bangumi E (bangumi w) = true →
  Bangumi.get (fun b => name_contains E (Bangumi.name b) name) (bangumi w)
  = Some bangumi_obj →
  Bangumi.name bangumi_obj ≠ "" →
  store_ok (followed w) →
  add_watermark E bangumi_obj first n1 →
  add_watermark E bangumi_obj second n2 →
  let w1 := (add E name first w).2 in
  let w2 := (delete E (Bangumi.name bangumi_obj) false batch w1).2 in
  ∃ row,
    (add E name second w2).1
    = Returned (<["message" := "add " +:+ Bangumi.name bangumi_obj
                                +:+ " to subscribing bangumi list"]>
                  (<["status" := "success"]> ∅))
    ∧ followed (add E name second w2).2 !! Bangumi.name bangumi_obj = Some row
    ∧ Followed.status row = Followed.STATUS_FOLLOWED
    ∧ Followed.episode row = n2.
Proof.
  intros Hup Hb Hname Hok Hn1 Hn2 w1 w2.
  destruct (add_leaves_row E name first n1 w bangumi_obj Hup Hb Hok Hn1)
    as (r1 & row1 & _ & Hcat1 & Hok1 & Hrow1 & _ & _).
  fold w1 in Hcat1, Hok1, Hrow1.
  assert (w2 = set_followed
                 (Followed.save (Followed.set_status Followed.STATUS_DELETED row1)
                    (followed w1)) w1) as Hw2.
  { unfold w2. by rewrite (delete_found E _ batch w1 row1). }
  pose proof (Hok1 _ _ Hrow1) as Hkey. simpl in Hkey.
  assert (followed w2 !! Bangumi.name bangumi_obj
          = Some (Followed.set_status Followed.STATUS_DELETED row1)) as Hrow2.
  { rewrite Hw2. simpl. rewrite lookup_save. simpl. by rewrite Hkey, decide_True. }
  assert (bangumi w2 = bangumi w) as Hcat2 by (rewrite Hw2; simpl; done).
  assert (store_ok (followed w2)) as Hok2 by (rewrite Hw2; simpl; by apply store_ok_save).
  rewrite (add_resolved E name second n2 w2 w2 bangumi_obj);
    [| apply refresh_catalog_listed; by rewrite Hcat2 | by rewrite Hcat2 | done].
  rewrite Hrow2. simpl.
  exists (Followed.set_episode n2
            (Followed.set_status Followed.STATUS_FOLLOWED
               (Followed.set_status Followed.STATUS_DELETED row1))).
  split_and!; [done| |done|done].
  rewrite lookup_save. simpl. by rewrite Hkey, decide_True.
Qed.

Lemma add_delete_add_witness :
  get_updating_bangumi E0 (bangumi (world_of [])) = true
  ∧ Bangumi.name show_a ≠ ""
  ∧ store_ok (followed (world_of []))
  ∧ add_watermark E0 show_a (Some 2) 2
  ∧ add_watermark E0 show_a None 6
  ∧ ∃ row,
      (add E0 "Show" None
         (delete E0 "Show A" false false (add E0 "Show" (Some 2) (world_of [])).2).2).1
      = Returned (<["message" := "add Show A to subscribing bangumi list"]>
                    (<["status" := "success"]> ∅))
      ∧ followed
          (add E0 "Show" None
             (delete E0 "Show A" false false (add E0 "Show" (Some 2) (world_of [])).2).2).2
        !! "Show A" = Some row
      ∧ Followed.status row = Followed.STATUS_FOLLOWED
      ∧ Followed.episode row = 6.
Proof.
  assert (Bangumi.name show_a ≠ "") as Hname by discriminate.
  assert (store_ok (followed (world_of []))) as Hok
    by (apply (bool_decide_unpack (store_ok _)); vm_compute; exact I).
  assert (add_watermark E0 show_a None 6) as Hn by (exists observed_a; split; reflexivity).
  split; [reflexivity|]. split; [exact Hname|]. split; [exact Hok|].
  split; [reflexivity|]. split; [exact Hn|].
  exact (add_delete_add E0 "Show" (Some 2) None 2 6 false (world_of []) show_a
           eq_refl eq_refl Hname Hok eq_refl Hn).
Defined.

(** X5: the single-name form of [delete] touches no row but the named
    one, and neither the catalog nor the downloads. *)
Theorem delete_touches_named_row_only (E : services) (name : string) (batch : bool)
    (w : world) (k : string) :
  store_ok (followed w) →
  k ≠ name →
  followed (delete E name false batch w).2 !! k = followed w !! k
  ∧ bangumi (delete E name false batch w).2 = bangumi w
  ∧ downloads (delete E name false batch w).2 = downloads w.
Proof.
  intros Hok Hk. unfold delete. simpl.
  destruct (negb (String.eqb name "")); [|done].
  unfold Followed.get. destruct (followed w !! name) as [row|] eqn:Hrow; [|done].
  simpl. split; [|done]. rewrite lookup_save. simpl.
  pose proof (Hok _ _ Hrow) as Hkey. simpl in Hkey. rewrite Hkey.
  by rewrite decide_False.
Qed.

Lemma delete_touches_named_row_only_witness :
  store_ok (followed (world_of [sub "Show A" 3 1 0; sub "Show B" 1 2 50]))
  ∧ "Show B" ≠ "Show A"
  ∧ followed (delete E0 "Show A" false false
                (world_of [sub "Show A" 3 1 0; sub "Show B" 1 2 50])).2 !! "Show B"
    = followed (world_of [sub "Show A" 3 1 0; sub "Show B" 1 2 50]) !! "Show B"
  ∧ bangumi (delete E0 "Show A" false false
               (world_of [sub "Show A" 3 1 0; sub "Show B" 1 2 50])).2
    = bangumi (world_of [sub "Show A" 3 1 0; sub "Show B" 1 2 50])
  ∧ downloads (delete E0 "Show A" false false
                 (world_of [sub "Show A" 3 1 0; sub "Show B" 1 2 50])).2
    = downloads (world_of [sub "Show A" 3 1 0; sub "Show B" 1 2 50]).
Proof.
  assert (store_ok (followed (world_of [sub "Show A" 3 1 0; sub "Show B" 1 2 50]))) as Hok
    by (apply (bool_decide_unpack (store_ok _)); vm_compute; exact I).
  assert ("Show B" ≠ "Show A") as Hk by discriminate.
  split; [exact Hok|]. split; [exact Hk|].
  exact (delete_touches_named_row_only E0 "Show A" false _ "Show B" Hok Hk).
Defined.

(** X6: [mark] changes nothing but the watermark of the named row: that
    row keeps its status, updated_time and filters, every other row is
    left alone, and a name without a row adds none. *)
Theorem mark_writes_watermark_only (E : services) (name : string) (episode : Z)
    (w : world) (k : string) :
  store_ok (followed w) →
  followed (mark E name episode w).2 !! k
  = if decide (k = name) then Followed.set_episode episode <$> followed w !! k
    else followed w !! k.
Proof.
  intros Hok. unfold mark, Followed.get.
  destruct (followed w !! name) as [row|] eqn:Hrow.
  - simpl. rewrite lookup_save. simpl.
    pose proof (Hok _ _ Hrow) as Hkey. simpl in Hkey. rewrite Hkey.
    destruct (decide (k = name)) as [->|Hk].
    + by rewrite decide_True, Hrow.
    + by rewrite decide_False.
  - destruct (get_model E name); simpl; case_decide; subst; by rewrite ?Hrow.
Qed.

Lemma mark_writes_watermark_only_witness :
  store_ok (followed (world_of [deleted_a; sub "Show B" 1 2 50]))
  ∧ followed (mark E0 "Show A" 12 (world_of [deleted_a; sub "Show B" 1 2 50])).2 !! "Show A"
    = (if decide ("Show A" = "Show A")
       then Followed.set_episode 12
              <$> followed (world_of [deleted_a; sub "Show B" 1 2 50]) !! "Show A"
       else followed (world_of [deleted_a; sub "Show B" 1 2 50]) !! "Show A").
Proof.
  assert (store_ok (followed (world_of [deleted_a; sub "Show B" 1 2 50]))) as Hok
    by (apply (bool_decide_unpack (store_ok _)); vm_compute; exact I).
  split; [exact Hok|].
  exact (mark_writes_watermark_only E0 "Show A" 12 _ "Show A" Hok).
Defined.

(** X7: of two [mark]s of the same name the last one wins: the result
    and the world are those of the second [mark] alone. *)
Theorem mark_twice (E : services) (name : string) (first second : Z) (w : world) :
  store_ok (followed w) →
  mark E name second (mark E name first w).2 = mark E name second w.
Proof.
  intros Hok. unfold mark at 2. unfold Followed.get.
  destruct (followed w !! name) as [row|] eqn:Hrow.
  - pose proof (Hok _ _ Hrow) as Hkey. simpl in Hkey. simpl.
    unfold mark, Followed.get. simpl.
    rewrite lookup_save. simpl. rewrite Hkey, decide_True, Hrow by done.
    unfold set_followed, Followed.save, Followed.set_episode. simpl.
    by rewrite Hkey, insert_insert_eq.
  - by destruct (get_model E name).
Qed.

Lemma mark_twice_witness :
  store_ok (followed (world_of [sub "Show A" 3 1 0]))
  ∧ mark E0 "Show A" 9 (mark E0 "Show A" 5 (world_of [sub "Show A" 3 1 0])).2
    = mark E0 "Show A" 9 (world_of [sub "Show A" 3 1 0]).
Proof.
  assert (store_ok (followed (world_of [sub "Show A" 3 1 0]))) as Hok
    by (apply (bool_decide_unpack (store_ok _)); vm_compute; exact I).
  split; [exact Hok|]. exact (mark_twice E0 "Show A" 5 9 _ Hok).
Defined.

(** X8: [status_] accepts the codes of FOLLOWED and UPDATED only: any
    other code, the default [STATUS_DELETED] included, gives the error
    result "Invalid status" and changes nothing. *)
Theorem status_rejects_other_codes (name : string) (status : Z) (w : world) :
  status ≠ Followed.STATUS_FOLLOWED →
  status ≠ Followed.STATUS_UPDATED →
  status_ name status w
  = (Returned (<["message" := "Invalid status: " +:+ pretty status]>
                 (<["status" := "error"]> ∅)), w).
Proof.
  intros H1 H2. unfold status_.
  destruct (decide (status ∈ Followed.FOLLOWED_STATUS)) as [Hin|Hin].
  - rewrite bool_decide_eq_true_2 by done. simpl.
    assert (status = 0) as ->.
    { unfold Followed.FOLLOWED_STATUS in Hin.
      repeat (apply elem_of_cons in Hin as [?|Hin]; [done|]).
      by apply elem_of_nil in Hin. }
    done.
  - by rewrite bool_decide_eq_false_2.
Qed.

Lemma status_rejects_other_codes_witness :
  Followed.STATUS_DELETED ≠ Followed.STATUS_FOLLOWED
  ∧ Followed.STATUS_DELETED ≠ Followed.STATUS_UPDATED
  ∧ status_ "Show A" Followed.STATUS_DELETED (world_of [sub "Show A" 3 1 0])
    = (Returned (<["message" := "Invalid status: " +:+ pretty Followed.STATUS_DELETED]>
                   (<["status" := "error"]> ∅)), world_of [sub "Show A" 3 1 0]).
Proof.
  assert (Followed.STATUS_DELETED ≠ Followed.STATUS_FOLLOWED) as H1 by discriminate.
  assert (Followed.STATUS_DELETED ≠ Followed.STATUS_UPDATED) as H2 by discriminate.
  split; [exact H1|]. split; [exact H2|].
  exact (status_rejects_other_codes "Show A" _ _ H1 H2).
Defined.

(** X9: [status_] with the code of FOLLOWED or UPDATED on a name that has
    a row returns a success result and writes the code into the status
    of that row, whatever the status was (a deleted row included);
    watermark, updated_time and filters stay, and so does every other
    row. *)
Theorem status_writes_status_only (name : string) (status : Z) (w : world)
    (row : Followed.t) :
  status = Followed.STATUS_FOLLOWED ∨ status = Followed.STATUS_UPDATED →
  store_ok (followed w) →
  followed w !! name = Some row →
  status_ name status w
  = (Returned (<["message" := "Followed<" +:+ name +:+ "> has been marked as status "
                               +:+ pretty status]>
                 (<["status" := "success"]> ∅)),
     set_followed (<[name := Followed.set_status status row]> (followed w)) w).
Proof.
  intros Hs Hok Hrow. pose proof (Hok _ _ Hrow) as Hkey. simpl in Hkey.
  unfold status_, Followed.get, Followed.save.
  destruct Hs as [-> | ->]; simpl; rewrite Hrow; simpl; by rewrite Hkey.
Qed.

Lemma status_writes_status_only_witness :
  (Followed.STATUS_UPDATED = Followed.STATUS_FOLLOWED
   ∨ Followed.STATUS_UPDATED = Followed.STATUS_UPDATED)
  ∧ store_ok (followed (world_of [deleted_a]))
  ∧ status_ "Show A" Followed.STATUS_UPDATED (world_of [deleted_a])
    = (Returned (<["message" := "Followed<" +:+ "Show A" +:+ "> has been marked as status "
                                 +:+ pretty Followed.STATUS_UPDATED]>
                   (<["status" := "success"]> ∅)),
       set_followed
         (<["Show A" := Followed.set_status Followed.STATUS_UPDATED deleted_a]>
            (followed (world_of [deleted_a]))) (world_of [deleted_a])).
Proof.
  assert (Followed.STATUS_UPDATED = Followed.STATUS_FOLLOWED
          ∨ Followed.STATUS_UPDATED = Followed.STATUS_UPDATED) as Hs by (right; reflexivity).
  assert (store_ok (followed (world_of [deleted_a]))) as Hok
    by (apply (bool_decide_unpack (store_ok _)); vm_compute; exact I).
  split; [exact Hs|]. split; [exact Hok|].
  exact (status_writes_status_only "Show A" _ _ deleted_a Hs Hok eq_refl).
Defined.

(** ** More on the refresh cycle *)

Lemma for_each_preserves {A : Type} (P : world → Prop) (body : A → M unit)
    (l : list A) (w : world) :
  (∀ x w0, x ∈ l → P w0 → P (body x w0).2) → P w → P (for_each l body w).2.
Proof.
  revert w. induction l as [|x l IH]; intros w Hbody Hw; [done|].
  simpl. unfold bind.
  assert (P (body x w).2) as Hx by (apply Hbody; [apply elem_of_cons; by left|done]).
  destruct (body x w) as [[[]|e] w1]; simpl in *; [|done].
  apply IH; [|done]. intros y w0 Hy. apply Hbody, elem_of_cons. by right.
Qed.

(** What one turn of the loop does to the table: nothing, or the row of
    the listed name is saved with a higher watermark than the listed one,
    in status UPDATED. *)
Lemma update_one_followed (E : services) (download ignore : bool) (subscribe : Followed.t)
    (w : world) :
  followed (update_one E download ignore subscribe w).2 = followed w
  ∨ ∃ bangumi_obj followed_obj obs,
      Bangumi.get (fun b => String.eqb (Bangumi.name b) (Followed.bangumi_name subscribe))
        (bangumi w) = Some bangumi_obj
      ∧ get_maximum_episode E bangumi_obj (Some ignore) (max_path E) = Returned obs
      ∧ followed w !! Followed.bangumi_name subscribe = Some followed_obj
      ∧ Followed.episode subscribe < highest obs
      ∧ followed (update_one E download ignore subscribe w).2
        = Followed.save
            (Followed.set_updated_time (time_time E (clock w))
               (Followed.set_status Followed.STATUS_UPDATED
                  (Followed.set_episode (highest obs) followed_obj)))
            (followed w).
Proof.
  unfold update_one.
  destruct (Bangumi.get _ _) as [bangumi_obj|] eqn:Hb; [|by left].
  destruct (Followed.get _ _) as [followed_obj|] eqn:Hrow; [|by left].
  destruct (get_maximum_episode _ _ _ _) as [obs|[]] eqn:Hfetch; try by left.
  unfold bind.
  destruct (Z.lt_ge_cases (Followed.episode subscribe) (highest obs)) as [Hlt|Hge].
  - right. exists bangumi_obj, followed_obj, obs. split_and!; try done.
    rewrite reconcile_advance by done. by destruct download.
  - left. rewrite reconcile_idle by lia. by destruct download.
Qed.

Lemma update_one_other (E : services) (download ignore : bool) (subscribe : Followed.t)
    (w : world) (k : string) :
  store_ok (followed w) → k ≠ Followed.bangumi_name subscribe →
  followed (update_one E download ignore subscribe w).2 !! k = followed w !! k.
Proof.
  intros Hok Hk.
  destruct (update_one_followed E download ignore subscribe w)
    as [->|(b & f & obs & _ & _ & Hrow & _ & ->)]; [done|].
  pose proof (Hok _ _ Hrow) as Hkey. simpl in Hkey.
  rewrite lookup_save. simpl. rewrite Hkey. by rewrite decide_False.
Qed.

Lemma update_one_dom (E : services) (download ignore : bool) (subscribe : Followed.t)
    (w : world) :
  store_ok (followed w) →
  dom (followed (update_one E download ignore subscribe w).2) = dom (followed w).
Proof.
  intros Hok.
  destruct (update_one_followed E download ignore subscribe w)
    as [->|(b & f & obs & _ & _ & Hrow & _ & ->)]; [done|].
  pose proof (Hok _ _ Hrow) as Hkey. simpl in Hkey.
  unfold Followed.save. simpl. rewrite Hkey, dom_insert_L.
  apply subseteq_union_1_L, singleton_subseteq_l. by eapply elem_of_dom_2.
Qed.

Lemma sweep_dom (now : Z) (rows : gmap string Followed.t) :
  store_ok rows → dom (sweep now rows) = dom rows.
Proof.
  intros Hok. apply set_eq. intros k. rewrite !elem_of_dom, sweep_lookup by done.
  by rewrite fmap_is_Some.
Qed.

(** X10: a refresh cycle, however it ends, neither adds nor removes a
    subscription, keeps every row under its own name, and leaves the
    catalog as it was. *)
Theorem update_keeps_subscriptions (E : services) (names : list string)
    (download not_ignore : bool) (w : world) :
  store_ok (followed w) →
  dom (followed (update E names download not_ignore w).2) = dom (followed w)
  ∧ store_ok (followed (update E names download not_ignore w).2)
  ∧ bangumi (update E names download not_ignore w).2 = bangumi w.
Proof.
  intros Hok.
  destruct (update_sweeps_first E names download not_ignore w) as [logged ->].
  set (P := fun w' : world => store_ok (followed w')
                              ∧ dom (followed w') = dom (followed w)
                              ∧ bangumi w' = bangumi w).
  cut (P (for_each (select_followed names (sweep (time_time E (clock w)) (followed w)))
            (update_one E download (negb not_ignore))
            (World (bangumi w) (sweep (time_time E (clock w)) (followed w))
               (downloads w ++ logged) (S (clock w)))).2).
  { intros (? & ? & ?). done. }
  apply for_each_preserves.
  - intros x w0 _ (Hok0 & Hdom0 & Hcat0). split_and!.
    + by apply update_one_ok.
    + by rewrite update_one_dom.
    + by rewrite update_one_bangumi.
  - split_and!; simpl; [by apply sweep_ok|by apply sweep_dom|done].
Qed.

Lemma update_keeps_subscriptions_witness :
  store_ok (followed (world_of [sub "Show A" 3 1 0; sub "Show B" 1 1 0]))
  ∧ dom (followed (update E0 [] true false
                     (world_of [sub "Show A" 3 1 0; sub "Show B" 1 1 0])).2)
    = dom (followed (world_of [sub "Show A" 3 1 0; sub "Show B" 1 1 0]))
  ∧ store_ok (followed (update E0 [] true false
                          (world_of [sub "Show A" 3 1 0; sub "Show B" 1 1 0])).2)
  ∧ bangumi (update E0 [] true false
               (world_of [sub "Show A" 3 1 0; sub "Show B" 1 1 0])).2
    = bangumi (world_of [sub "Show A" 3 1 0; sub "Show B" 1 1 0]).
Proof.
  assert (store_ok (followed (world_of [sub "Show A" 3 1 0; sub "Show B" 1 1 0]))) as Hok
    by (apply (bool_decide_unpack (store_ok _)); vm_compute; exact I).
  split; [exact Hok|]. exact (update_keeps_subscriptions E0 [] true false _ Hok).
Defined.

Lemma update_one_quiet (E : services) (ignore : bool) (subscribe : Followed.t) (w : world) :
  downloads (update_one E false ignore subscribe w).2 = downloads w.
Proof.
  unfold update_one.
  destruct (Bangumi.get _ _) as [bangumi_obj|]; [|done].
  destruct (Followed.get _ _) as [followed_obj|]; [|done].
  destruct (get_maximum_episode _ _ _ _) as [obs|[]]; try done.
  unfold bind, reconcile. destruct (_ <? _); done.
Qed.

(** X11: without the download flag a refresh cycle hands nothing to the
    downloader: no retry of failed downloads, no script queue, no queue of
    a reconciled series. *)
Theorem update_without_download (E : services) (names : list string) (not_ignore : bool)
    (w : world) :
  downloads (update E names false not_ignore w).2 = downloads w.
Proof.
  unfold update, bind, now_, ret, set_followed. simpl.
  assert (∀ w0 : world,
            (match script_download_queue E with
             | [] => @ret unit tt
             | _ :: _ => ret tt
             end) w0 = (Returned tt, w0)) as Hscript
    by (intros w0; by destruct (script_download_queue E)).
  unfold ret in Hscript. rewrite Hscript.
  apply (for_each_preserves (fun w' => downloads w' = downloads w)); [|done].
  intros x w0 _ Hw0. by rewrite update_one_quiet.
Qed.

Lemma for_each_update_other (E : services) (download ignore : bool) (l : list Followed.t)
    (w : world) (k : string) :
  store_ok (followed w) → k ∉ Followed.bangumi_name <$> l →
  followed (for_each l (update_one E download ignore) w).2 !! k = followed w !! k.
Proof.
  intros Hok Hk.
  cut (store_ok (followed (for_each l (update_one E download ignore) w).2)
       ∧ followed (for_each l (update_one E download ignore) w).2 !! k = followed w !! k).
  { by intros [_ ?]. }
  apply (for_each_preserves
           (fun w' => store_ok (followed w') ∧ followed w' !! k = followed w !! k));
    [|done].
  intros x w0 Hx [Hok0 Hk0]. split; [by apply update_one_ok|].
  rewrite update_one_other; [done|done|].
  intros ->. apply Hk. apply list_elem_of_fmap. by exists x.
Qed.

(** X12: a refresh cycle over all subscriptions (no names given) leaves
    every deleted subscription exactly as it was. *)
Theorem update_all_leaves_deleted (E : services) (download not_ignore : bool) (w : world)
    (k : string) (row : Followed.t) :
  store_ok (followed w) →
  followed w !! k = Some row →
  Followed.status row = Followed.STATUS_DELETED →
  followed (update E [] download not_ignore w).2 !! k = Some row.
Proof.
  intros Hok Hrow Hs.
  destruct (update_sweeps_first E [] download not_ignore w) as [logged ->].
  set (now := time_time E (clock w)).
  assert (sweep now (followed w) !! k = Some row) as Hswept.
  { rewrite sweep_lookup, Hrow by done. simpl.
    rewrite bool_decide_eq_false_2; [done|]. intros Hn. by apply Hn. }
  pose proof (sweep_ok now _ Hok) as Hok'.
  rewrite for_each_update_other; [done|done|]. simpl.
  intros (g & Hg & Hin)%list_elem_of_fmap.
  apply get_all_followed_elem in Hin as [Hgs [k' Hk']].
  pose proof (Hok' _ _ Hk') as Hkey. simpl in Hkey. subst k' k.
  rewrite Hswept in Hk'. injection Hk' as <-. done.
Qed.

Lemma update_all_leaves_deleted_witness :
  store_ok (followed (world_of [deleted_a; sub "Show B" 1 1 0]))
  ∧ followed (world_of [deleted_a; sub "Show B" 1 1 0]) !! "Show A" = Some deleted_a
  ∧ Followed.status deleted_a = Followed.STATUS_DELETED
  ∧ followed (update E0 [] true false (world_of [deleted_a; sub "Show B" 1 1 0])).2
      !! "Show A" = Some deleted_a.
Proof.
  assert (store_ok (followed (world_of [deleted_a; sub "Show B" 1 1 0]))) as Hok
    by (apply (bool_decide_unpack (store_ok _)); vm_compute; exact I).
  split; [exact Hok|]. split; [reflexivity|]. split; [reflexivity|].
  exact (update_all_leaves_deleted E0 true false _ "Show A" deleted_a Hok eq_refl eq_refl).
Defined.

(** The rows selected for the loop are rows of the table, under their
    own names, and no name is selected twice when none is given twice. *)
Lemma select_followed_rows (names : list string) (rows : gmap string Followed.t)
    (s : Followed.t) :
  store_ok rows → s ∈ select_followed names rows →
  rows !! Followed.bangumi_name s = Some s.
Proof.
  intros Hok Hs. unfold select_followed in Hs.
  assert (∃ k, rows !! k = Some s) as [k Hk].
  { destruct names as [|n names].
    - apply get_all_followed_elem in Hs as [_ ?]. done.
    - apply list_elem_of_omap in Hs as (k & _ & Hk). by exists k. }
  pose proof (Hok _ _ Hk) as Hkey. simpl in Hkey. by rewrite Hkey.
Qed.

Lemma select_followed_names (names : list string) (rows : gmap string Followed.t) :
  store_ok rows → NoDup names →
  NoDup (Followed.bangumi_name <$> select_followed names rows).
Proof.
  intros Hok Hnd. unfold select_followed. destruct names as [|n names].
  - by apply get_all_followed_names.
  - generalize dependent (n :: names). clear n names. intros names Hnd.
    induction Hnd as [|k names Hk Hnd IH]; csimpl; [constructor|].
    unfold Followed.get at 1. destruct (rows !! k) as [s|] eqn:Hrow; csimpl; [|done].
    constructor; [|done]. intros (g & Hg & Hin)%list_elem_of_fmap.
    apply list_elem_of_omap in Hin as (k' & Hk' & Hget).
    pose proof (Hok _ _ Hrow) as Hkey1. pose proof (Hok _ _ Hget) as Hkey2.
    simpl in *. congruence.
Qed.

(** The loop over rows listed once each, read from the table it runs on,
    only raises watermarks. *)
Lemma for_each_update_raises (E : services) (download ignore : bool) (l : list Followed.t)
    (w : world) :
  store_ok (followed w) →
  NoDup (Followed.bangumi_name <$> l) →
  (∀ s, s ∈ l → followed w !! Followed.bangumi_name s = Some s) →
  ∀ k row, followed w !! k = Some row →
    ∃ row', followed (for_each l (update_one E download ignore) w).2 !! k = Some row'
            ∧ Followed.episode row ≤ Followed.episode row'.
Proof.
  revert w. induction l as [|x l IH]; intros w Hok Hnd Hl k row Hrow.
  - exists row. split; [done|lia].
  - rewrite fmap_cons in Hnd. apply NoDup_cons in Hnd as [Hx Hnd].
    assert (∀ s, s ∈ l →
              followed (update_one E download ignore x w).2 !! Followed.bangumi_name s
              = Some s) as Hl1.
    { intros s Hs. rewrite update_one_other; [|done|].
      - apply Hl, elem_of_cons. by right.
      - intros Heq. apply Hx. rewrite <- Heq. apply list_elem_of_fmap. by exists s. }
    assert (∃ row1, followed (update_one E download ignore x w).2 !! k = Some row1
                    ∧ Followed.episode row ≤ Followed.episode row1) as (row1 & Hrow1 & Hle1).
    { destruct (update_one_followed E download ignore x w)
        as [->|(b & f & obs & _ & _ & Hf & Hlt & ->)].
      - exists row. split; [done|lia].
      - rewrite (Hl x) in Hf by (apply elem_of_cons; by left). injection Hf as <-.
        rewrite lookup_save. simpl.
        destruct (decide (Followed.bangumi_name x = k)) as [<-|Hk].
        + eexists. split; [done|]. simpl.
          rewrite (Hl x) in Hrow by (apply elem_of_cons; by left).
          injection Hrow as <-. lia.
        + exists row. split; [done|lia]. }
    pose proof (update_one_ok E download ignore x w Hok) as Hok1.
    simpl. unfold bind.
    destruct (update_one E download ignore x w) as [[[]|e] w1]; simpl in *.
    + destruct (IH w1 Hok1 Hnd Hl1 k row1 Hrow1) as (row' & Hrow' & Hle').
      exists row'. split; [done|lia].
    + exists row1. split; [done|done].
Qed.

(** X13: a refresh cycle in which no name is given twice never lowers a
    watermark: every subscription is still there afterwards, with a
    watermark at least as high as before. *)
Theorem update_never_lowers_watermark (E : services) (names : list string)
    (download not_ignore : bool) (w : world) (k : string) (row : Followed.t) :
  store_ok (followed w) →
  NoDup names →
  followed w !! k = Some row →
  ∃ row', followed (update E names download not_ignore w).2 !! k = Some row'
          ∧ Followed.episode row ≤ Followed.episode row'.
Proof.
  intros Hok Hnd Hrow.
  destruct (update_sweeps_first E names download not_ignore w) as [logged ->].
  set (now := time_time E (clock w)).
  pose proof (sweep_ok now _ Hok) as Hok'.
  assert (∃ row0, sweep now (followed w) !! k = Some row0
                  ∧ Followed.episode row0 = Followed.episode row) as (row0 & Hrow0 & Heq).
  { rewrite sweep_lookup, Hrow by done. simpl. eexists. split; [done|].
    by destruct (_ && _). }
  destruct (for_each_update_raises E download (negb not_ignore)
              (select_followed names (sweep now (followed w)))
              (World (bangumi w) (sweep now (followed w)) (downloads w ++ logged)
                 (S (clock w))) Hok'
              (select_followed_names _ _ Hok' Hnd)
              (fun s Hs => select_followed_rows names _ s Hok' Hs) k row0 Hrow0)
    as (row' & Hrow' & Hle).
  exists row'. split; [done|lia].
Qed.

Lemma update_never_lowers_watermark_witness :
  store_ok (followed (world_of [sub "Show A" 3 1 0; sub "Show B" 1 1 0]))
  ∧ NoDup ["Show B"; "Show A"]
  ∧ followed (world_of [sub "Show A" 3 1 0; sub "Show B" 1 1 0]) !! "Show A"
    = Some (sub "Show A" 3 1 0)
  ∧ ∃ row', followed (update E0 ["Show B"; "Show A"] true false
                        (world_of [sub "Show A" 3 1 0; sub "Show B" 1 1 0])).2 !! "Show A"
            = Some row'
            ∧ Followed.episode (sub "Show A" 3 1 0) ≤ Followed.episode row'.
Proof.
  assert (store_ok (followed (world_of [sub "Show A" 3 1 0; sub "Show B" 1 1 0]))) as Hok
    by (apply (bool_decide_unpack (store_ok _)); vm_compute; exact I).
  assert (NoDup ["Show B"; "Show A"]) as Hnd
    by (apply (bool_decide_unpack (NoDup _)); vm_compute; exact I).
  split; [exact Hok|]. split; [exact Hnd|]. split; [reflexivity|].
  exact (update_never_lowers_watermark E0 ["Show B"; "Show A"] true false _ "Show A"
           (sub "Show A" 3 1 0) Hok Hnd eq_refl).
Defined.

Lemma range_snoc (start stop : Z) :
  start < stop → range start stop = range start (stop - 1) ++ [stop - 1].
Proof.
  intros Hlt. unfold range.
  replace (stop - start) with (Z.of_nat (S (Z.to_nat (stop - 1 - start)))) by lia.
  rewrite seqZ_S. rewrite Z2Nat.id by lia. do 2 f_equal. lia.
Qed.

(** X14: the download queue of a reconciliation holds observed episodes
    only, and when the watermark advances on a non-empty observed list
    its last entry is an episode with the highest observed number: the
    newest episode is always queued. *)
Theorem update_queue_from_observed (E : services) (subscribe followed_obj : Followed.t)
    (obs queue : list Episode.t) (w w' : world) :
  reconcile E subscribe followed_obj obs w = (Returned queue, w') →
  (∀ e, e ∈ queue → e ∈ obs)
  ∧ (obs ≠ [] → Followed.episode subscribe < highest obs →
     ∃ x, last queue = Some x ∧ Episode.episode x = highest obs).
Proof.
  intros Hrec.
  destruct (Z.lt_ge_cases (Followed.episode subscribe) (highest obs)) as [Hlt|Hge].
  - rewrite reconcile_advance in Hrec by done. injection Hrec as <- _. split.
    + intros e (n & _ & Hsel)%list_elem_of_omap.
      by apply last_instance_number in Hsel as [_ ?].
    + intros Hobs _. rewrite range_snoc by lia. rewrite omap_app.
      replace (highest obs + 1 - 1) with (highest obs) by lia. csimpl.
      destruct (last_instance (highest obs) obs) as [x|] eqn:Hx.
      * exists x. split; [by rewrite last_snoc|].
        by apply last_instance_number in Hx as [? _].
      * exfalso. destruct (highest_attained obs Hobs) as (e & He & Hn).
        by eapply last_instance_None in Hx.
  - rewrite reconcile_idle in Hrec by lia. injection Hrec as <- _. split.
    + intros e []%elem_of_nil.
    + lia.
Qed.

Lemma update_queue_from_observed_witness :
  reconcile E0 (sub "Show A" 3 1 0) (sub "Show A" 3 1 0) observed_a
    (world_of [sub "Show A" 3 1 0])
  = (Returned [ep 4 "alt"; ep 6 "main"],
     World [show_a; show_b] {["Show A" := sub "Show A" 6 2 2000000]} [] 1)
  ∧ (∀ e, e ∈ [ep 4 "alt"; ep 6 "main"] → e ∈ observed_a)
  ∧ (observed_a ≠ [] → Followed.episode (sub "Show A" 3 1 0) < highest observed_a →
     ∃ x, last [ep 4 "alt"; ep 6 "main"] = Some x ∧ Episode.episode x = highest observed_a).
Proof.
  assert (reconcile E0 (sub "Show A" 3 1 0) (sub "Show A" 3 1 0) observed_a
            (world_of [sub "Show A" 3 1 0])
          = (Returned [ep 4 "alt"; ep 6 "main"],
             World [show_a; show_b] {["Show A" := sub "Show A" 6 2 2000000]} [] 1)) as H
    by (vm_compute; reflexivity).
  split; [exact H|]. exact (update_queue_from_observed E0 _ _ _ _ _ _ H).
Defined.

(** X15: the staleness sweep changes no column but the status, and that
    only of a row that is not deleted, has its updated_time set and more
    than a day old, which it sets to FOLLOWED; it adds and removes no
    row. *)
Theorem sweep_writes_status_only (now : Z) (rows : gmap string Followed.t) (k : string) :
  store_ok rows →
  match rows !! k with
  | None => sweep now rows !! k = None
  | Some row =>
      if bool_decide (Followed.status row ≠ Followed.STATUS_DELETED
                      ∧ Followed.updated_time row ≠ 0
                      ∧ Followed.updated_time row + 60 * 60 * 24 < now)
      then sweep now rows !! k
           = Some (Followed.mk (Followed.bangumi_name row) (Followed.episode row)
                     Followed.STATUS_FOLLOWED (Followed.updated_time row)
                     (Followed.subtitle row) (Followed.include row)
                     (Followed.exclude row) (Followed.regex row))
      else sweep now rows !! k = Some row
  end.
Proof.
  intros Hok. rewrite sweep_lookup by done.
  destruct (rows !! k) as [row|]; [|done]. simpl. unfold stale.
  destruct (decide (Followed.status row ≠ Followed.STATUS_DELETED)) as [Hs|Hs].
  - rewrite (bool_decide_eq_true_2 _ Hs). simpl.
    destruct (Z.eqb_spec (Followed.updated_time row) 0) as [Hz|Hz]; simpl.
    + rewrite bool_decide_eq_false_2; [done|]. intros (_ & ? & _). done.
    + destruct (Z.ltb_spec (Followed.updated_time row + 60 * 60 * 24) now).
      * by rewrite bool_decide_eq_true_2.
      * rewrite bool_decide_eq_false_2; [done|]. intros (_ & _ & ?). lia.
  - rewrite (bool_decide_eq_false_2 _ Hs). simpl.
    rewrite bool_decide_eq_false_2; [done|]. intros (? & _ & _). done.
Qed.

Lemma sweep_writes_status_only_witness :
  store_ok (followed (world_of [sub "Show A" 5 2 1910000]))
  ∧ match followed (world_of [sub "Show A" 5 2 1910000]) !! "Show A" with
    | None => sweep 2000000 (followed (world_of [sub "Show A" 5 2 1910000])) !! "Show A" = None
    | Some row =>
        if bool_decide (Followed.status row ≠ Followed.STATUS_DELETED
                        ∧ Followed.updated_time row ≠ 0
                        ∧ Followed.updated_time row + 60 * 60 * 24 < 2000000)
        then sweep 2000000 (followed (world_of [sub "Show A" 5 2 1910000])) !! "Show A"
             = Some (Followed.mk (Followed.bangumi_name row) (Followed.episode row)
                       Followed.STATUS_FOLLOWED (Followed.updated_time row)
                       (Followed.subtitle row) (Followed.include row)
                       (Followed.exclude row) (Followed.regex row))
        else sweep 2000000 (followed (world_of [sub "Show A" 5 2 1910000])) !! "Show A"
             = Some row
    end.
Proof.
  split.
  - apply (bool_decide_unpack (store_ok _)). vm_compute. exact I.
  - apply (sweep_writes_status_only 2000000 _ "Show A").
    apply (bool_decide_unpack (store_ok _)). vm_compute. exact I.
Defined.

(** X16: a refresh cycle for one named series whose episode source
    reports a number above the watermark ends normally and leaves the row
    at the highest observed number, in status UPDATED, stamped with the
    clock, with its filters kept; the status the row had plays no part,
    so a deleted subscription named explicitly is refreshed as well. *)
Theorem update_named_series (E : services) (name : string) (download not_ignore : bool)
    (w : world) (row : Followed.t) (bangumi_obj : Bangumi.t) (obs : list Episode.t) :
  store_ok (followed w) →
  followed w !! name = Some row →
  Bangumi.get (fun b => String.eqb (Bangumi.name b) name) (bangumi w) = Some bangumi_obj →
  get_maximum_episode E bangumi_obj (Some (negb not_ignore)) (max_path E) = Returned obs →
  Followed.episode row < highest obs →
  (update E [name] download not_ignore w).1 = Returned tt
  ∧ followed (update E [name] download not_ignore w).2
    = <[name := Followed.mk name (highest obs) Followed.STATUS_UPDATED
                  (time_time E (S (clock w))) (Followed.subtitle row) (Followed.include row)
                  (Followed.exclude row) (Followed.regex row)]>
        (sweep (time_time E (clock w)) (followed w)).
Proof.
  intros Hok Hrow Hb Hfetch Hlt.
  destruct (update_sweeps_first E [name] download not_ignore w) as [logged ->].
  set (now := time_time E (clock w)).
  pose proof (Hok _ _ Hrow) as Hkey. simpl in Hkey.
  assert (∃ row0, sweep now (followed w) !! name = Some row0
                  ∧ Followed.set_status Followed.STATUS_UPDATED row0
                    = Followed.set_status Followed.STATUS_UPDATED row)
    as (row0 & Hrow0 & Hsame).
  { rewrite sweep_lookup, Hrow by done. simpl. eexists. split; [done|].
    by destruct (_ && _). }
  assert (Followed.bangumi_name row0 = name ∧ Followed.episode row0 = Followed.episode row)
    as [Hname0 Hep0].
  { apply (f_equal Followed.bangumi_name) in Hsame as Hn.
    apply (f_equal Followed.episode) in Hsame as He. simpl in *. by rewrite Hn, He. }
  assert (Followed.set_updated_time (time_time E (S (clock w)))
            (Followed.set_status Followed.STATUS_UPDATED
               (Followed.set_episode (highest obs) row0))
          = Followed.mk name (highest obs) Followed.STATUS_UPDATED
              (time_time E (S (clock w))) (Followed.subtitle row) (Followed.include row)
              (Followed.exclude row) (Followed.regex row)) as Hnew.
  { unfold Followed.set_status in Hsame. injection Hsame as Hn _ Hu Hsub Hinc Hexc Hre.
    unfold Followed.set_updated_time, Followed.set_status, Followed.set_episode. simpl.
    by rewrite Hname0, Hsub, Hinc, Hexc, Hre. }
  assert (∃ w1,
            update_one E download (negb not_ignore) row0
              (World (bangumi w) (sweep now (followed w)) (downloads w ++ logged)
                 (S (clock w))) = (Returned tt, w1)
            ∧ followed w1
              = <[name := Followed.mk name (highest obs) Followed.STATUS_UPDATED
                            (time_time E (S (clock w))) (Followed.subtitle row)
                            (Followed.include row) (Followed.exclude row)
                            (Followed.regex row)]> (sweep now (followed w)))
    as (w1 & Hone & Hw1).
  { unfold update_one. simpl. rewrite Hname0, Hb.
    unfold Followed.get. rewrite Hrow0, Hfetch.
    unfold bind. rewrite reconcile_advance by (rewrite Hep0; done). simpl.
    rewrite Hnew. unfold Followed.save. simpl.
    destruct download; simpl; eexists; split; done. }
  assert (select_followed [name] (sweep now (followed w)) = [row0]) as ->.
  { unfold select_followed, Followed.get. csimpl. by rewrite Hrow0. }
  simpl. unfold bind. by rewrite Hone.
Qed.

Lemma update_named_series_witness :
  store_ok (followed (world_of [deleted_a]))
  ∧ followed (world_of [deleted_a]) !! "Show A" = Some deleted_a
  ∧ Followed.episode deleted_a < highest observed_a
  ∧ (update E0 ["Show A"] true false (world_of [deleted_a])).1 = Returned tt
  ∧ followed (update E0 ["Show A"] true false (world_of [deleted_a])).2
    = <["Show A" := Followed.mk "Show A" (highest observed_a) Followed.STATUS_UPDATED
                      (time_time E0 (S (clock (world_of [deleted_a]))))
                      (Followed.subtitle deleted_a) (Followed.include deleted_a)
                      (Followed.exclude deleted_a) (Followed.regex deleted_a)]>
        (sweep (time_time E0 (clock (world_of [deleted_a]))) (followed (world_of [deleted_a]))).
Proof.
  assert (store_ok (followed (world_of [deleted_a]))) as Hok
    by (apply (bool_decide_unpack (store_ok _)); vm_compute; exact I).
  assert (Followed.episode deleted_a < highest observed_a) as Hlt by reflexivity.
  split; [exact Hok|]. split; [reflexivity|]. split; [exact Hlt|].
  exact (update_named_series E0 "Show A" true false (world_of [deleted_a]) deleted_a show_a
           observed_a Hok eq_refl eq_refl eq_refl Hlt).
Defined.

(** ** More on search *)

(** X17: outside debug mode [search] never raises, whatever its back
    end and the regex filter raise: it returns either a success result
    or an error result with no data, and both repeat the options of the
    call. *)
Theorem search_outside_debug (E : services) (keyword : string) (count : Z)
    (regex : option string) (dupe : bool) (min_episode max_episode : option Z)
    (tag : bool) (subtitle : option string) :
  debug E = false →
  ∃ result,
    search E keyword count regex dupe min_episode max_episode tag subtitle = Returned result
    ∧ res_options result = Options keyword count regex dupe min_episode max_episode
    ∧ (res_status result = "success"
       ∨ res_status result = "error" ∧ res_data result = []).
Proof.
  intros Hdebug. unfold search. rewrite Hdebug.
  destruct (search_data E keyword count regex dupe min_episode max_episode tag subtitle);
    eexists; (split; [done|]); simpl; (split; [done|]); [by left|by right].
Qed.

Lemma search_outside_debug_witness :
  debug E_down = false
  ∧ ∃ result,
      search E_down "Show" 3 None false None None true None = Returned result
      ∧ res_options result = Options "Show" 3 None false None None
      ∧ (res_status result = "success"
         ∨ res_status result = "error" ∧ res_data result = []).
Proof.
  split; [reflexivity|].
  apply (search_outside_debug E_down "Show" 3 None false None None true None). reflexivity.
Defined.

Lemma insert_by_filter {A : Type} (key : A → Z) (x : A) (l : list A) (k : Z) :
  filter (fun y => key y = k) (insert_by key x l) = filter (fun y => key y = k) (x :: l).
Proof.
  induction l as [|y l IH]; simpl; [done|].
  destruct (Z.leb_spec (key x) (key y)) as [Hle|Hgt]; [done|].
  destruct (decide (key y = k)) as [Hy|Hy].
  - rewrite (filter_cons_True _ y) by done. rewrite IH.
    rewrite (filter_cons_False _ x) by (simpl; lia).
    rewrite (filter_cons_False _ x) by (simpl; lia).
    by rewrite (filter_cons_True _ y).
  - rewrite (filter_cons_False _ y) by done. rewrite IH.
    destruct (decide (key x = k)) as [Hx|Hx].
    + rewrite !(filter_cons_True _ x) by done. by rewrite (filter_cons_False _ y).
    + rewrite !(filter_cons_False _ x) by done. by rewrite (filter_cons_False _ y).
Qed.

(** X18: the sort of [search] is stable: the episodes of any one number
    come out in the order they went in. *)
Theorem sort_stable {A : Type} (key : A → Z) (l : list A) (k : Z) :
  filter (fun y => key y = k) (sort key l) = filter (fun y => key y = k) l.
Proof.
  unfold sort. induction l as [|x l IH]; [done|]. simpl.
  rewrite insert_by_filter.
  destruct (decide (key x = k)) as [Hx|Hx].
  - rewrite !(filter_cons_True _ x) by done. by rewrite IH.
  - rewrite !(filter_cons_False _ x) by done. by rewrite IH.
Qed.

(** X19: when the deduplication is off, or returns only episodes it was
    given, every episode of a successful [search] lies within the bounds
    of the call: at or above [min_episode] and at or below [max_episode],
    where given. *)
Theorem search_within_bounds (E : services) (keyword : string) (count : Z)
    (regex : option string) (dupe : bool) (min_episode max_episode : option Z)
    (tag : bool) (subtitle : option string) (result : SearchResult) :
  dupe = true ∨ (∀ data x, x ∈ remove_duplicated_bangumi E data → x ∈ data) →
  search E keyword count regex dupe min_episode max_episode tag subtitle = Returned result →
  res_status result = "success" →
  ∀ x, x ∈ res_data result →
    (∀ m, min_episode = Some m → m ≤ Episode.episode x)
    ∧ (∀ m, max_episode = Some m → Episode.episode x ≤ m).
Proof.
  intros Hdedup. unfold search.
  destruct (search_data E keyword count regex dupe min_episode max_episode tag subtitle)
    as [data|e] eqn:Hdata.
  - intros [= <-] _ x Hx. simpl in Hx. unfold search_data in Hdata.
    destruct (if tag then _ else _) as [found|]; [|done].
    destruct (episode_filter_regex E found regex) as [kept|]; [|done].
    injection Hdata as <-. rewrite sort_perm in Hx.
    assert (x ∈ match max_episode with
                | Some m => filter (λ x, Episode.episode x ≤ m)
                              match min_episode with
                              | Some m0 => filter (λ x, m0 ≤ Episode.episode x) kept
                              | None => kept
                              end
                | None => match min_episode with
                          | Some m0 => filter (λ x, m0 ≤ Episode.episode x) kept
                          | None => kept
                          end
                end) as Hin.
    { destruct dupe; simpl in Hx; [done|].
      destruct Hdedup as [?|Hsub]; [done|]. by apply Hsub. }
    clear Hx. split; intros m ->.
    + destruct max_episode; [apply list_elem_of_filter in Hin as [_ Hin]|];
        by apply list_elem_of_filter in Hin as [? _].
    + by apply list_elem_of_filter in Hin as [? _].
  - destruct (debug E); [done|]. intros [= <-]. done.
Qed.

Lemma search_within_bounds_witness :
  (true = true ∨ (∀ data x, x ∈ remove_duplicated_bangumi E0 data → x ∈ data))
  ∧ search E0 "Show" 3 None true (Some 2) (Some 2) false None
    = Returned (Result "success" "" (Options "Show" 3 None true (Some 2) (Some 2)) [ep 2 "b"])
  ∧ ∀ x, x ∈ [ep 2 "b"] →
      (∀ m, Some 2 = Some m → m ≤ Episode.episode x)
      ∧ (∀ m, Some 2 = Some m → Episode.episode x ≤ m).
Proof.
  assert (search E0 "Show" 3 None true (Some 2) (Some 2) false None
          = Returned (Result "success" "" (Options "Show" 3 None true (Some 2) (Some 2))
                        [ep 2 "b"])) as H by (vm_compute; reflexivity).
  split; [by left|]. split; [exact H|].
  exact (search_within_bounds E0 _ _ _ _ _ _ _ _ _ (or_introl eq_refl) H eq_refl).
Defined.

(** ** The filter controller *)

Lemma split_comma_cons (s : string) : ∃ piece rest, split_comma s = piece :: rest.
Proof.
  induction s as [|c s (piece & rest & IH)]; simpl; [by eexists _, _|].
  destruct (Ascii.eqb c comma); [by eexists _, _|]. rewrite IH. by eexists _, _.
Qed.

(** X20: splitting at the commas loses nothing: the pieces hold no comma,
    and joined with commas they give the string back. *)
Theorem split_comma_join (s : string) :
  join_comma (split_comma s) = s
  ∧ Forall (fun piece => comma ∉ chars piece) (split_comma s).
Proof.
  induction s as [|c s [IHjoin IHall]].
  - split; [done|]. constructor; [|constructor]. simpl. apply not_elem_of_nil.
  - destruct (split_comma_cons s) as (piece & rest & Hs).
    simpl split_comma. rewrite Hs in *.
    destruct (Ascii.eqb_spec c comma) as [->|Hc].
    + split.
      * change (join_comma (EmptyString :: piece :: rest))
          with (String comma (join_comma (piece :: rest))).
        by rewrite IHjoin.
      * constructor; [|done]. simpl. apply not_elem_of_nil.
    + apply Forall_cons in IHall as [Hpiece Hrest]. split.
      * destruct rest as [|next rest].
        -- simpl in *. by rewrite IHjoin.
        -- change (join_comma (String c piece :: next :: rest))
             with (String c (join_comma (piece :: next :: rest))).
           by rewrite IHjoin.
      * constructor; [|done]. simpl. intros [?|?]%elem_of_cons; [congruence|done].
Qed.

Lemma apply_filters_keeps (S : subtitle_services) (bangumi_obj : Bangumi.t)
    (subtitle include exclude regex : option string) (row : Followed.t) :
  Followed.bangumi_name (apply_filters S bangumi_obj subtitle include exclude regex row)
  = Followed.bangumi_name row
  ∧ Followed.episode (apply_filters S bangumi_obj subtitle include exclude regex row)
    = Followed.episode row
  ∧ Followed.status (apply_filters S bangumi_obj subtitle include exclude regex row)
    = Followed.status row
  ∧ Followed.updated_time (apply_filters S bangumi_obj subtitle include exclude regex row)
    = Followed.updated_time row.
Proof. destruct subtitle, include, exclude, regex; done. Qed.

(** [filter_] on a resolved series with a row: the filters of that row
    are replaced. *)
Lemma filter_resolved (E : services) (S : subtitle_services) (name : string)
    (subtitle include exclude regex : option string) (w : world)
    (bangumi_obj : Bangumi.t) (row : Followed.t) :
  store_ok (followed w) →
  Bangumi.get (fun b => name_contains E (Bangumi.name b) name) (bangumi w)
  = Some bangumi_obj →
  followed w !! Bangumi.name bangumi_obj = Some row →
  (filter_ E S name subtitle include exclude regex w).2
  = set_followed
      (<[Bangumi.name bangumi_obj :=
           apply_filters S bangumi_obj subtitle include exclude regex row]>
         (followed w)) w.
Proof.
  intros Hok Hb Hrow. unfold filter_, Followed.get. rewrite Hb, Hrow. simpl.
  unfold Followed.save.
  destruct (apply_filters_keeps S bangumi_obj subtitle include exclude regex row) as [-> _].
  pose proof (Hok _ _ Hrow) as Hkey. simpl in Hkey. by rewrite Hkey.
Qed.

Lemma filter_unresolved (E : services) (S : subtitle_services) (name : string)
    (subtitle include exclude regex : option string) (w : world) :
  (∀ bangumi_obj,
     Bangumi.get (fun b => name_contains E (Bangumi.name b) name) (bangumi w)
     = Some bangumi_obj →
     followed w !! Bangumi.name bangumi_obj = None) →
  (filter_ E S name subtitle include exclude regex w).2 = w.
Proof.
  intros Hnone. unfold filter_, Followed.get.
  destruct (Bangumi.get _ _) as [bangumi_obj|]; [|done].
  by rewrite (Hnone bangumi_obj eq_refl).
Qed.

(** X21: [filter_] without any option is a query: it leaves the world,
    the subscription table included, exactly as it was. *)
Theorem filter_without_options (E : services) (S : subtitle_services) (name : string)
    (w : world) :
  store_ok (followed w) →
  (filter_ E S name None None None None w).2 = w.
Proof.
  intros Hok.
  destruct (Bangumi.get (fun b => name_contains E (Bangumi.name b) name) (bangumi w))
    as [bangumi_obj|] eqn:Hb.
  - destruct (followed w !! Bangumi.name bangumi_obj) as [row|] eqn:Hrow.
    + rewrite (filter_resolved E S name None None None None w bangumi_obj row) by done.
      simpl. rewrite insert_id by done. by destruct w.
    + apply filter_unresolved. intros b. rewrite Hb. by intros [= <-].
  - apply filter_unresolved. intros b. by rewrite Hb.
Qed.

Lemma filter_without_options_witness :
  store_ok (followed (world_of [deleted_a]))
  ∧ (filter_ E0 S0 "Show" None None None None (world_of [deleted_a])).2
    = world_of [deleted_a].
Proof.
  assert (store_ok (followed (world_of [deleted_a]))) as Hok
    by (apply (bool_decide_unpack (store_ok _)); vm_compute; exact I).
  split; [exact Hok|]. exact (filter_without_options E0 S0 "Show" _ Hok).
Defined.

(** X22: after [filter_] with a subtitle option, the subtitle groups
    stored on the subscription are groups of its series, and are groups
    that the given names resolve to; names that resolve to no group of
    the series are dropped. *)
Theorem filter_subtitle_within_series (E : services) (S : subtitle_services)
    (name subtitle : string) (include exclude regex : option string) (w : world)
    (bangumi_obj : Bangumi.t) (row : Followed.t) :
  store_ok (followed w) →
  Bangumi.get (fun b => name_contains E (Bangumi.name b) name) (bangumi w)
  = Some bangumi_obj →
  followed w !! Bangumi.name bangumi_obj = Some row →
  ∃ row',
    followed (filter_ E S name (Some subtitle) include exclude regex w).2
      !! Bangumi.name bangumi_obj = Some row'
    ∧ ∀ g, g ∈ Followed.subtitle row' →
        g ∈ Bangumi.subtitle_group bangumi_obj
        ∧ g ∈ Subtitle.id <$> get_subtitle_by_name S (strip S <$> split_comma subtitle).
Proof.
  intros Hok Hb Hrow.
  rewrite (filter_resolved E S name (Some subtitle) include exclude regex w bangumi_obj row)
    by done.
  simpl. rewrite lookup_insert_eq. eexists. split; [done|].
  intros g Hg.
  assert (g ∈ filter (fun s => s ∈ Bangumi.subtitle_group bangumi_obj)
                (Subtitle.id <$> get_subtitle_by_name S (strip S <$> split_comma subtitle)))
    as Hin by (destruct include, exclude, regex; exact Hg).
  by apply list_elem_of_filter in Hin.
Qed.

Lemma filter_subtitle_within_series_witness :
  store_ok (followed (world_of [sub "Show A" 3 1 0]))
  ∧ ∃ row',
      followed (filter_ E0 S0 "Show" (Some " Group One ,Group Nine,Nope") None None None
                  (world_of [sub "Show A" 3 1 0])).2 !! Bangumi.name show_a = Some row'
      ∧ ∀ g, g ∈ Followed.subtitle row' →
          g ∈ Bangumi.subtitle_group show_a
          ∧ g ∈ Subtitle.id
                <$> get_subtitle_by_name S0
                      (strip S0 <$> split_comma " Group One ,Group Nine,Nope").
Proof.
  assert (store_ok (followed (world_of [sub "Show A" 3 1 0]))) as Hok
    by (apply (bool_decide_unpack (store_ok _)); vm_compute; exact I).
  split; [exact Hok|].
  exact (filter_subtitle_within_series E0 S0 "Show" " Group One ,Group Nine,Nope"
           None None None _ show_a (sub "Show A" 3 1 0) Hok eq_refl eq_refl).
Defined.

(** X23: [filter_] writes filters only: every row is still there
    afterwards under its name, with the status, watermark and
    updated_time it had, and neither the catalog nor the downloads are
    touched. *)
Theorem filter_keeps_lifecycle (E : services) (S : subtitle_services) (name : string)
    (subtitle include exclude regex : option string) (w : world) (k : string)
    (row : Followed.t) :
  store_ok (followed w) →
  followed w !! k = Some row →
  (∃ row',
     followed (filter_ E S name subtitle include exclude regex w).2 !! k = Some row'
     ∧ Followed.bangumi_name row' = Followed.bangumi_name row
     ∧ Followed.episode row' = Followed.episode row
     ∧ Followed.status row' = Followed.status row
     ∧ Followed.updated_time row' = Followed.updated_time row)
  ∧ bangumi (filter_ E S name subtitle include exclude regex w).2 = bangumi w
  ∧ downloads (filter_ E S name subtitle include exclude regex w).2 = downloads w.
Proof.
  intros Hok Hk.
  destruct (Bangumi.get (fun b => name_contains E (Bangumi.name b) name) (bangumi w))
    as [bangumi_obj|] eqn:Hb.
  - destruct (followed w !! Bangumi.name bangumi_obj) as [row0|] eqn:Hrow.
    + rewrite (filter_resolved E S name subtitle include exclude regex w bangumi_obj row0)
        by done.
      simpl. split; [|done].
      destruct (decide (Bangumi.name bangumi_obj = k)) as [<-|Hne].
      * rewrite lookup_insert_eq. eexists. split; [done|].
        rewrite Hrow in Hk. injection Hk as <-. apply apply_filters_keeps.
      * rewrite lookup_insert_ne by done. by exists row.
    + rewrite filter_unresolved; [by eauto 10|]. intros b. rewrite Hb. by intros [= <-].
  - rewrite filter_unresolved; [by eauto 10|]. intros b. by rewrite Hb.
Qed.

Lemma filter_keeps_lifecycle_witness :
  store_ok (followed (world_of [deleted_a]))
  ∧ followed (world_of [deleted_a]) !! "Show A" = Some deleted_a
  ∧ (∃ row',
       followed (filter_ E0 S0 "Show" (Some "Group Two") (Some "1080") (Some "") None
                   (world_of [deleted_a])).2 !! "Show A" = Some row'
       ∧ Followed.bangumi_name row' = Followed.bangumi_name deleted_a
       ∧ Followed.episode row' = Followed.episode deleted_a
       ∧ Followed.status row' = Followed.status deleted_a
       ∧ Followed.updated_time row' = Followed.updated_time deleted_a)
  ∧ bangumi (filter_ E0 S0 "Show" (Some "Group Two") (Some "1080") (Some "") None
               (world_of [deleted_a])).2 = bangumi (world_of [deleted_a])
  ∧ downloads (filter_ E0 S0 "Show" (Some "Group Two") (Some "1080") (Some "") None
                 (world_of [deleted_a])).2 = downloads (world_of [deleted_a]).
Proof.
  assert (store_ok (followed (world_of [deleted_a]))) as Hok
    by (apply (bool_decide_unpack (store_ok _)); vm_compute; exact I).
  split; [exact Hok|]. split; [reflexivity|].
  exact (filter_keeps_lifecycle E0 S0 "Show" (Some "Group Two") (Some "1080") (Some "") None
           _ "Show A" deleted_a Hok eq_refl).
Defined.

(** X24: a refresh cycle given names of which none has a subscription
    reconciles nothing (it does not fall back to all subscriptions): it
    ends normally and the table is the swept one. *)
Theorem update_unknown_names (E : services) (names : list string)
    (download not_ignore : bool) (w : world) :
  store_ok (followed w) →
  names ≠ [] →
  (∀ n, n ∈ names → followed w !! n = None) →
  (update E names download not_ignore w).1 = Returned tt
  ∧ followed (update E names download not_ignore w).2
    = sweep (time_time E (clock w)) (followed w).
Proof.
  intros Hok Hnames Hnone.
  destruct (update_sweeps_first E names download not_ignore w) as [logged ->].
  assert (select_followed names (sweep (time_time E (clock w)) (followed w)) = []) as ->.
  { unfold select_followed. destruct names as [|n names]; [done|].
    generalize dependent (n :: names). clear n names. intros names _ Hnone.
    induction names as [|n names IH]; [done|]. csimpl.
    unfold Followed.get at 1. rewrite sweep_lookup by done.
    rewrite (Hnone n) by (apply elem_of_cons; by left). csimpl.
    apply IH. intros m Hm. apply Hnone, elem_of_cons. by right. }
  done.
Qed.

Lemma update_unknown_names_witness :
  store_ok (followed (world_of [sub "Show A" 3 1 0]))
  ∧ ["Show C"] ≠ []
  ∧ (∀ n, n ∈ ["Show C"] → followed (world_of [sub "Show A" 3 1 0]) !! n = None)
  ∧ (update E0 ["Show C"] true false (world_of [sub "Show A" 3 1 0])).1 = Returned tt
  ∧ followed (update E0 ["Show C"] true false (world_of [sub "Show A" 3 1 0])).2
    = sweep (time_time E0 (clock (world_of [sub "Show A" 3 1 0])))
        (followed (world_of [sub "Show A" 3 1 0])).
Proof.
  assert (store_ok (followed (world_of [sub "Show A" 3 1 0]))) as Hok
    by (apply (bool_decide_unpack (store_ok _)); vm_compute; exact I).
  assert (["Show C"] ≠ []) as Hne by discriminate.
  assert (∀ n, n ∈ ["Show C"] → followed (world_of [sub "Show A" 3 1 0]) !! n = None) as Hnone.
  { intros n Hn. apply list_elem_of_singleton in Hn as ->. reflexivity. }
  split; [exact Hok|]. split; [exact Hne|]. split; [exact Hnone|].
  exact (update_unknown_names E0 ["Show C"] true false _ Hok Hne Hnone).
Defined.

(** X25: an exception of the fetch that is not a connection error ends
    the refresh cycle at that series: the cycle raises it, the series
    listed before keep what their reconciliation wrote, and the series
    listed after are not visited. *)
Theorem update_stops_at_other_exception (E : services) (download ignore : bool)
    (before after : list Followed.t) (subscribe followed_obj : Followed.t) (w w1 : world)
    (bangumi_obj : Bangumi.t) (msg : string) :
  for_each before (update_one E download ignore) w = (Returned tt, w1) →
  Bangumi.get (fun b => String.eqb (Bangumi.name b) (Followed.bangumi_name subscribe))
    (bangumi w1) = Some bangumi_obj →
  Followed.get (Followed.bangumi_name subscribe) (followed w1) = Some followed_obj →
  get_maximum_episode E bangumi_obj (Some ignore) (max_path E) = Raised (Exception msg) →
  for_each (before ++ subscribe :: after) (update_one E download ignore) w
  = (Raised (Exception msg), w1).
Proof.
  intros Hbefore Hb Hrow Hfetch. rewrite for_each_app. unfold bind. rewrite Hbefore.
  simpl. unfold bind.
  by rewrite (update_one_propagates E download ignore subscribe followed_obj w1
                bangumi_obj msg Hb Hrow Hfetch).
Qed.

Lemma update_stops_at_other_exception_witness :
  for_each [sub "Show A" 3 1 0]
    (update_one (sample_services
                   (fun b => if String.eqb (Bangumi.name b) "Show A" then Returned observed_a
                             else Raised (Exception "bad page"))
                   (Returned [])) true true)
    (world_of [sub "Show A" 3 1 0; sub "Show B" 1 1 0])
  = (Returned tt,
     World [show_a; show_b]
       (<["Show A" := sub "Show A" 6 2 2000000]> {["Show B" := sub "Show B" 1 1 0]})
       [Download.of_queue [ep 4 "alt"; ep 6 "main"]] 1)
  ∧ for_each ([sub "Show A" 3 1 0] ++ sub "Show B" 1 1 0 :: [sub "Show A" 3 1 0])
      (update_one (sample_services
                     (fun b => if String.eqb (Bangumi.name b) "Show A" then Returned observed_a
                               else Raised (Exception "bad page"))
                     (Returned [])) true true)
      (world_of [sub "Show A" 3 1 0; sub "Show B" 1 1 0])
    = (Raised (Exception "bad page"),
       World [show_a; show_b]
         (<["Show A" := sub "Show A" 6 2 2000000]> {["Show B" := sub "Show B" 1 1 0]})
         [Download.of_queue [ep 4 "alt"; ep 6 "main"]] 1).
Proof.
  assert (for_each [sub "Show A" 3 1 0]
            (update_one (sample_services
                           (fun b => if String.eqb (Bangumi.name b) "Show A"
                                     then Returned observed_a
                                     else Raised (Exception "bad page"))
                           (Returned [])) true true)
            (world_of [sub "Show A" 3 1 0; sub "Show B" 1 1 0])
          = (Returned tt,
             World [show_a; show_b]
               (<["Show A" := sub "Show A" 6 2 2000000]> {["Show B" := sub "Show B" 1 1 0]})
               [Download.of_queue [ep 4 "alt"; ep 6 "main"]] 1)) as H
    by (vm_compute; reflexivity).
  split; [exact H|].
  exact (update_stops_at_other_exception _ true true _ [sub "Show A" 3 1 0]
           (sub "Show B" 1 1 0) (sub "Show B" 1 1 0) _ _ show_b "bad page"
           H eq_refl eq_refl eq_refl).
Defined.
